(* ===================================================================== *)
(* Shipment analysis core (wnwd): a shallow embedding of                 *)
(*   utils/retry.util.ts                      retryWithBackoff            *)
(*   adapters/weather/open-meteo.provider.ts  OpenMeteoWeatherProvider    *)
(*   services/keyword-delay-analyzer.service.ts                           *)
(*   services/shipment-analyzer.service.ts    ShipmentAnalyzerService     *)
(*   index.ts                                 enrichRecordsWithErrors     *)
(*                                                                       *)
(* Modelling choices:                                                    *)
(* - A JavaScript number that the code only compares (confidences,       *)
(*   coordinates) is a rational (Q).  The literals compared here (0.7,   *)
(*   0.8, 0.9) are ordered the same way as their IEEE doubles.           *)
(* - A thrown exception is the [Threw] constructor of [Outcome].         *)
(* - The collaborators injected into ShipmentAnalyzerService are the     *)
(*   fields of a record [Env]; the delay classifier threads a state of   *)
(*   its own, so that two calls on the same reason may differ.           *)
(* - Awaited calls are sequenced in list order; the counters of the      *)
(*   state record which calls were made.                                 *)
(* ===================================================================== *)

From Stdlib Require Import QArith Qround Lia Ascii String.
From stdpp Require Import base gmap strings list pretty.


Local Notation "a +s+ b" := (String.append a b) (at level 60, right associativity).

(* --------------------------------------------------------------------- *)
(* Errors and thrown outcomes                                            *)
(* --------------------------------------------------------------------- *)

(* A JavaScript [Error]: its name (Error, RangeError, ...), its message
   and the optional [statusCode] that fetchWeatherData attaches to HTTP
   errors. *)
Record Error := mkError { error_name : string; message : string; statusCode : option Z }.

(* String(error) for an Error *)
Definition error_toString (e : Error) : string :=
  error_name e +s+ ": " +s+ message e.

Inductive Outcome (A : Type) : Type :=
| Returned (a : A)
| Threw (e : Error).
Arguments Returned {A} a.
Arguments Threw {A} e.

(* --------------------------------------------------------------------- *)
(* Strings: String.prototype.toLowerCase (ASCII) and includes            *)
(* --------------------------------------------------------------------- *)

Definition lower_ascii (c : ascii) : ascii :=
  let n := nat_of_ascii c in
  if (65 <=? n)%nat && (n <=? 90)%nat then ascii_of_nat (n + 32) else c.

Fixpoint toLowerCase (s : string) : string :=
  match s with
  | EmptyString => EmptyString
  | String c s' => String (lower_ascii c) (toLowerCase s')
  end.

(* [hay.includes(needle)] *)
Fixpoint includes (hay needle : string) : bool :=
  String.prefix needle hay ||
  match hay with
  | EmptyString => false
  | String _ hay' => includes hay' needle
  end.

(* ===================================================================== *)
(* Retry engine: utils/retry.util.ts                                      *)
(* ===================================================================== *)

Record RetryOptions := {
  maxRetries : nat;   (* parseInt of RETRY_MAX_ATTEMPTS: a count *)
  baseDelay : Z;
  maxDelay : Z;
  jitterFactor : Q
}.

(* What retryWithBackoff throws: the operation's own error, re-thrown,
   or a RetryExhaustedError(message, attempts, lastError). *)
Inductive RetryError : Type :=
| Rethrown (e : Error)
| RetryExhaustedError (msg : string) (attempts : nat) (lastError : option Error).

Section Retry.
Context {T : Type}.
(* [operation attempt]: what the attempt-th call of operation() does. *)
Variable operation : nat -> Outcome T.
Variable isRetryable : Error -> bool.
Variable options : RetryOptions.

(* The for-loop from [attempt] with [fuel] iterations left; returns the
   result and the number of invocations of the operation so far.  The
   backoff sleep only waits, so it has no counterpart here. *)
Fixpoint retry_loop (attempt fuel : nat) (lastError : option Error)
    : (T + RetryError) * nat :=
  match fuel with
  | O =>
      (inr (RetryExhaustedError
              ("Operation failed after " +s+ pretty (S (maxRetries options)) +s+ " attempts")
              (S (maxRetries options)) lastError), attempt)
  | S fuel' =>
      match operation attempt with
      | Returned v => (inl v, S attempt)
      | Threw e =>
          if negb (isRetryable e) then (inr (Rethrown e), S attempt)
          else retry_loop (S attempt) fuel' (Some e)
      end
  end.

Definition retryWithBackoff : (T + RetryError) * nat :=
  retry_loop 0 (S (maxRetries options)) None.

Definition fails_retryably (j : nat) : Prop :=
  exists e, operation j = Threw e /\ isRetryable e = true.
End Retry.

(* ===================================================================== *)
(* Weather results: types/result.types.ts                                 *)
(* ===================================================================== *)

Inductive WeatherFetchStatus :=
| SUCCESS | NO_DATA_AVAILABLE | RETRY_EXHAUSTED | FATAL_ERROR.

Record WeatherData := {
  temperature : option Q;
  windSpeed : option Q;
  windDirection : option Q
}.

(* The discriminated union WeatherResult, one constructor per status. *)
Inductive WeatherResult :=
| WeatherSuccess (data : WeatherData)
| WeatherNoData (error : option string)
| WeatherRetryExhausted (error : string)
| WeatherFatal (error : string).

Definition weather_status (w : WeatherResult) : WeatherFetchStatus :=
  match w with
  | WeatherSuccess _ => SUCCESS
  | WeatherNoData _ => NO_DATA_AVAILABLE
  | WeatherRetryExhausted _ => RETRY_EXHAUSTED
  | WeatherFatal _ => FATAL_ERROR
  end.

Definition isWeatherSuccess (w : WeatherResult) : bool :=
  match weather_status w with SUCCESS => true | _ => false end.

(* ===================================================================== *)
(* Dates                                                                  *)
(* ===================================================================== *)

(* A Date: a local calendar day and the milliseconds into that day, or
   an Invalid Date (what new Date(s) gives for a malformed string). *)
Inductive Date :=
| ValidDate (day ms : Z)
| InvalidDate.

Definition ms_per_day : Z := 86400000.

(* Date.prototype.valueOf; None stands for NaN. *)
Definition date_value (d : Date) : option Z :=
  match d with
  | ValidDate day ms => Some (day * ms_per_day + ms)%Z
  | InvalidDate => None
  end.

(* d.setHours(0, 0, 0, 0) *)
Definition setHours0 (d : Date) : Date :=
  match d with
  | ValidDate day _ => ValidDate day 0
  | InvalidDate => InvalidDate
  end.

(* a > b on Dates: a comparison with NaN is false. *)
Definition date_gt (a b : Date) : bool :=
  match date_value a, date_value b with
  | Some x, Some y => (y <? x)%Z
  | _, _ => false
  end.

(* d.toISOString(): a RangeError on an Invalid Date. *)
Definition toISOString (iso : Z -> Z -> string) (d : Date) : Outcome string :=
  match d with
  | ValidDate day ms => Returned (iso day ms)
  | InvalidDate => Threw (mkError "RangeError" "Invalid time value" None)
  end.

(* ===================================================================== *)
(* OpenMeteoWeatherProvider.getWeather: adapters/weather                  *)
(* ===================================================================== *)

(* utils/retry.util.ts: isNetworkError *)
Definition isNetworkError (e : Error) : bool :=
  let m := toLowerCase (message e) in
  includes m "timeout" || includes m "econnrefused" ||
  includes m "enotfound" || includes m "network".

(* OpenMeteoWeatherProvider.isRetryableError *)
Definition isRetryableError (e : Error) : bool :=
  if isNetworkError e then true
  else match statusCode e with
       | Some sc => (sc =? 429)%Z || ((500 <=? sc)%Z && (sc <? 600)%Z)
       | None => false
       end.

Section OpenMeteo.
(* The parsed JSON body of the archive API. *)
Context {OpenMeteoResponse : Type}.
Variable config_retry : RetryOptions.
(* new Date() when getWeather runs *)
Variable now : Date.
(* date.toISOString().split('T')[0] *)
Variable isoDate : Date -> string.
(* [fetchWeatherData lat lon date n]: what the n-th HTTP round trip
   (fetch, status check, JSON decoding, API error check) does. *)
Variable fetchWeatherData : Q -> Q -> Date -> nat -> Outcome OpenMeteoResponse.
(* parseWeatherResponse (runs inside the try block: a TypeError it
   raises is caught like any other error). *)
Variable parseWeatherResponse : OpenMeteoResponse -> Date -> Outcome WeatherResult.

(* The result of getWeather (it may still throw: reading
   error.lastError.message with lastError undefined) and the number of
   HTTP requests it made. *)
Definition getWeather (latitude longitude : Q) (date : Date)
    : Outcome WeatherResult * nat :=
  let today := setHours0 now in
  let targetDate := setHours0 date in
  if date_gt targetDate today then
    (Returned (WeatherNoData (Some
       ("Archive API only supports historical data. Requested date " +s+
        isoDate date +s+ " is in the future."))), 0%nat)
  else
    let '(r, calls) :=
      retryWithBackoff (fetchWeatherData latitude longitude date)
        isRetryableError config_retry in
    let res :=
      match r with
      | inl response =>
          match parseWeatherResponse response date with
          | Returned w => Returned w
          | Threw e => Returned (WeatherFatal (message e))
          end
      | inr (RetryExhaustedError _ attempts (Some last)) =>
          Returned (WeatherRetryExhausted
            ("Failed to fetch weather data after " +s+ pretty attempts +s+
             " attempts: " +s+ message last))
      | inr (RetryExhaustedError _ _ None) =>
          Threw (mkError "TypeError" "Cannot read properties of undefined (reading 'message')" None)
      | inr (Rethrown e) => Returned (WeatherFatal (message e))
      end in
    (res, calls).
End OpenMeteo.

(* ===================================================================== *)
(* Domain and result types: types/domain.types.ts, types/result.types.ts  *)
(* ===================================================================== *)

Record GeoLocation := { latitude : Q; longitude : Q; name : option string }.

Record Container := { container_containerNumber : string }.

Record Shipment := {
  shipmentId : string;
  customerName : string;
  shipperName : string;
  containers : list Container
}.

Record Tracking := {
  tracking_containerNumber : string;
  scac : string;
  estimatedArrival : Date;
  actualArrival : option Date;
  delayReasons : list string;
  destinationPort : option GeoLocation
}.

(* Result<T>: success with data, success without data (not found),
   failure. *)
Inductive Result (A : Type) :=
| ResultData (data : A) (msg : string)
| ResultNotFound (msg : string)
| ResultFailure (msg : string).
Arguments ResultData {A} data msg.
Arguments ResultNotFound {A} msg.
Arguments ResultFailure {A} msg.

Definition result_message {A} (r : Result A) : string :=
  match r with ResultData _ m | ResultNotFound m | ResultFailure m => m end.

(* result.success && 'data' in result *)
Definition isSuccess {A} (r : Result A) : bool :=
  match r with ResultData _ _ => true | _ => false end.

(* !result.success *)
Definition isFailure {A} (r : Result A) : bool :=
  match r with ResultFailure _ => true | _ => false end.

Record DelayAnalysisResult := {
  isWeatherRelated : bool;
  reasoning : string;
  confidence : Q
}.

Record ShipmentAnalysisRecord := {
  sglShipmentNo : string;
  record_customerName : string;
  record_shipperName : string;
  containerNumber : string;
  record_scac : option string;
  initialCarrierETA : option string;
  actualArrivalAt : option string;
  record_delayReasons : option string;
  record_temperature : option Q;
  record_windSpeed : option Q;
  weatherFetchStatus : option WeatherFetchStatus;
  lastUpdated : string;
  error : option string
}.

Record ShipmentAnalysisError := {
  error_containerNumber : string;
  errorType : string;
  error_message : string
}.

Definition mkAnalysisError (cn ty msg : string) : ShipmentAnalysisError :=
  {| error_containerNumber := cn; errorType := ty; error_message := msg |}.

(* ===================================================================== *)
(* KeywordDelayAnalyzerService                                            *)
(* ===================================================================== *)

Definition weatherKeywords : list string :=
  ["fog"; "mist"; "visibility"; "storm"; "thunderstorm"; "hurricane";
   "typhoon"; "cyclone"; "wind"; "gale"; "breeze"; "wave"; "swell";
   "sea state"; "rain"; "precipitation"; "downpour"; "snow"; "ice";
   "freeze"; "weather"; "meteorological"; "atmospheric"].

Definition keyword_analyzeDelay (delayReason : string) : DelayAnalysisResult :=
  let lowerReason := toLowerCase delayReason in
  let isWR := existsb (fun keyword => includes lowerReason keyword) weatherKeywords in
  let matchedKeywords := List.filter (fun keyword => includes lowerReason keyword) weatherKeywords in
  {| isWeatherRelated := isWR;
     reasoning := if isWR
                  then "Matched weather keywords: " +s+ String.concat ", " matchedKeywords
                  else "No weather keywords found";
     confidence := if isWR then 7 # 10 else 9 # 10 |}.

(* ===================================================================== *)
(* ShipmentAnalyzerService: services/shipment-analyzer.service.ts         *)
(* ===================================================================== *)

(* The constructor-injected collaborators and the runtime services the
   class reads. *)
Record Env (CS : Type) := {
  shipmentAdapter : string -> Result Shipment;            (* getShipmentById *)
  trackingAdapter : string -> Result Tracking;            (* getTrackingByContainer *)
  weatherProvider : Q -> Q -> Date -> Outcome WeatherResult; (* getWeather *)
  delayAnalyzer : CS -> string -> DelayAnalysisResult * CS;  (* analyzeDelay *)
  batchSize : nat;
  clock : string;                 (* new Date().toISOString() *)
  iso : Z -> Z -> string;         (* toISOString of a valid Date *)
  numberToString : Q -> string    (* `${n}` for a number *)
}.
Arguments shipmentAdapter {CS} e.
Arguments trackingAdapter {CS} e.
Arguments weatherProvider {CS} e.
Arguments delayAnalyzer {CS} e.
Arguments batchSize {CS} e.
Arguments clock {CS} e.
Arguments iso {CS} e.
Arguments numberToString {CS} e.

(* The state threaded through the awaited calls: the classifier's own
   state, the reasons passed to the classifier (in call order) and the
   number of calls of the weather provider. *)
Record St (CS : Type) := mkSt {
  classifier : CS;
  classified : list string;
  weatherCalls : nat
}.
Arguments mkSt {CS} _ _ _.
Arguments classifier {CS} s.
Arguments classified {CS} s.
Arguments weatherCalls {CS} s.

Definition CONFIDENCE_THRESHOLD : Q := 8 # 10.

Definition dquote : string := String (ascii_of_nat 34) EmptyString.

Definition lowConfidenceMessage (numberToString : Q -> string) (c : Q) (delayReason : string) : string :=
  "Delay analysis confidence too low (" +s+ numberToString c +s+
  ") even after retry for delay: " +s+ dquote +s+ delayReason +s+ dquote.

(* array.slice(i, j) *)
Definition slice {A} (array : list A) (i j : nat) : list A :=
  firstn (j - i) (skipn i array).

(* for (let i = 0; i < array.length; i += size) chunks.push(slice(i, i+size)),
   with a fuel bound of length + 1 iterations. *)
Fixpoint chunk_from {A} (array : list A) (size fuel i : nat) : list (list A) :=
  match fuel with
  | O => []
  | S fuel' =>
      if (i <? length array)%nat
      then slice array i (i + size) :: chunk_from array size fuel' (i + size)
      else []
  end.

Definition chunkArray {A} (array : list A) (size : nat) : list (list A) :=
  chunk_from array size (S (length array)) 0.

Section Analyzer.
Context {CS : Type}.
Variable env : Env CS.

Definition callAnalyzer (st : St CS) (delayReason : string) : DelayAnalysisResult * St CS :=
  let '(a, c') := delayAnalyzer env (classifier st) delayReason in
  (a, mkSt c' (classified st ++ [delayReason]) (weatherCalls st)).

Definition analyzeDelayWithConfidenceCheck (delayReason containerNumber : string)
    (errors : list ShipmentAnalysisError) (st : St CS)
    : option DelayAnalysisResult * list ShipmentAnalysisError * St CS :=
  let '(analysis, st1) := callAnalyzer st delayReason in
  if Qle_bool CONFIDENCE_THRESHOLD (confidence analysis) then (Some analysis, errors, st1)
  else
    let '(analysis2, st2) := callAnalyzer st1 delayReason in
    if Qle_bool CONFIDENCE_THRESHOLD (confidence analysis2) then (Some analysis2, errors, st2)
    else
      let errorMessage := lowConfidenceMessage (numberToString env) (confidence analysis2) delayReason in
      (None, errors ++ [mkAnalysisError containerNumber "DELAY_ANALYSIS_LOW_CONFIDENCE" errorMessage], st2).

(* The for-of loop of hasWeatherRelatedDelay over the remaining reasons. *)
Fixpoint weather_loop (reasons : list string) (containerNumber : string)
    (errors : list ShipmentAnalysisError) (st : St CS)
    : bool * list ShipmentAnalysisError * St CS :=
  match reasons with
  | [] => (false, errors, st)
  | reason :: rest =>
      let '(analysis, errors1, st1) :=
        analyzeDelayWithConfidenceCheck reason containerNumber errors st in
      match analysis with
      | None => weather_loop rest containerNumber errors1 st1
      | Some a =>
          if isWeatherRelated a then (true, errors1, st1)
          else weather_loop rest containerNumber errors1 st1
      end
  end.

Definition hasWeatherRelatedDelay (tracking : Tracking) (containerNumber : string)
    (errors : list ShipmentAnalysisError) (st : St CS) :=
  weather_loop (delayReasons tracking) containerNumber errors st.

Definition fetchWeatherSafely (tracking : Tracking) (containerNumber : string)
    (errors : list ShipmentAnalysisError) (st : St CS)
    : WeatherResult * list ShipmentAnalysisError * St CS :=
  match destinationPort tracking, actualArrival tracking with
  | Some port, Some arrival =>
      let st' := mkSt (classifier st) (classified st) (S (weatherCalls st)) in
      match weatherProvider env (latitude port) (longitude port) arrival with
      | Returned w => (w, errors, st')
      | Threw e =>
          (WeatherFatal (message e),
           errors ++ [mkAnalysisError containerNumber "WEATHER_FETCH_ERROR" (message e)], st')
      end
  | _, _ => (WeatherNoData (Some "Missing port location or arrival date"), errors, st)
  end.
(* tracking?.x?.toISOString() *)
Definition optISOString (d : option Date) : Outcome (option string) :=
  match d with
  | None => Returned None
  | Some d' =>
      match toISOString (iso env) d' with
      | Returned s => Returned (Some s)
      | Threw e => Threw e
      end
  end.

Definition buildErrorRecord (shipmentId : string) : ShipmentAnalysisRecord :=
  {| sglShipmentNo := shipmentId; record_customerName := "";
     record_shipperName := ""; containerNumber := "";
     record_scac := None; initialCarrierETA := None; actualArrivalAt := None;
     record_delayReasons := None; record_temperature := None;
     record_windSpeed := None; weatherFetchStatus := None;
     lastUpdated := clock env; error := None |}.

Definition buildBaseRecord (shipment : Shipment) (containerNumber : string)
    (tracking : option Tracking) : Outcome ShipmentAnalysisRecord :=
  match optISOString (option_map estimatedArrival tracking) with
  | Threw e => Threw e
  | Returned eta =>
      match optISOString (match tracking with Some t => actualArrival t | None => None end) with
      | Threw e => Threw e
      | Returned arrival =>
          Returned
            {| sglShipmentNo := shipmentId shipment;
               record_customerName := customerName shipment;
               record_shipperName := shipperName shipment;
               containerNumber := containerNumber;
               record_scac := option_map scac tracking;
               initialCarrierETA := eta;
               actualArrivalAt := arrival;
               record_delayReasons :=
                 option_map (fun t => String.concat "; " (delayReasons t)) tracking;
               record_temperature := None; record_windSpeed := None;
               weatherFetchStatus := None;
               lastUpdated := clock env; error := None |}
      end
  end.

(* record.temperature = ...; record.windSpeed = ... (on SUCCESS) and
   record.weatherFetchStatus = weatherResult.status *)
Definition applyWeather (r : ShipmentAnalysisRecord) (w : WeatherResult) : ShipmentAnalysisRecord :=
  let '(t, ws) :=
    match w with
    | WeatherSuccess d => (temperature d, windSpeed d)
    | _ => (record_temperature r, record_windSpeed r)
    end in
  {| sglShipmentNo := sglShipmentNo r; record_customerName := record_customerName r;
     record_shipperName := record_shipperName r; containerNumber := containerNumber r;
     record_scac := record_scac r; initialCarrierETA := initialCarrierETA r;
     actualArrivalAt := actualArrivalAt r; record_delayReasons := record_delayReasons r;
     record_temperature := t; record_windSpeed := ws;
     weatherFetchStatus := Some (weather_status w);
     lastUpdated := lastUpdated r; error := error r |}.

(* processContainer: Threw is a rejected promise (from toISOString in
   buildBaseRecord); the classifier and the weather call cannot make it
   reject (fetchWeatherSafely catches). *)
Definition processContainer (shipment : Shipment) (containerNumber : string) (st : St CS)
    : Outcome (ShipmentAnalysisRecord * list ShipmentAnalysisError) * St CS :=
  let trackingResult := trackingAdapter env containerNumber in
  let '(tracking, errors) :=
    match trackingResult with
    | ResultFailure m => (None, [mkAnalysisError containerNumber "TRACKING_FETCH_ERROR" m])
    | ResultData t _ => (Some t, [])
    | ResultNotFound _ => (None, [])
    end in
  match buildBaseRecord shipment containerNumber tracking with
  | Threw e => (Threw e, st)
  | Returned record =>
      match tracking with
      | None => (Returned (record, errors), st)
      | Some t =>
          let '(weatherRelated, errors1, st1) := hasWeatherRelatedDelay t containerNumber errors st in
          if weatherRelated then
            let '(weatherResult, errors2, st2) := fetchWeatherSafely t containerNumber errors1 st1 in
            (Returned (applyWeather record weatherResult, errors2), st2)
          else (Returned (record, errors1), st1)
      end
  end.

(* The Promise.allSettled over the containers, collected in order. *)
Fixpoint process_containers (shipment : Shipment) (cs : list Container) (st : St CS)
    : list ShipmentAnalysisRecord * list ShipmentAnalysisError * St CS :=
  match cs with
  | [] => ([], [], st)
  | c :: rest =>
      let '(o, st1) := processContainer shipment (container_containerNumber c) st in
      let '(rs, es, st2) := process_containers shipment rest st1 in
      match o with
      | Returned (r, errs) => (r :: rs, errs ++ es, st2)
      | Threw e =>
          (rs, mkAnalysisError "unknown" "TRACKING_FETCH_ERROR"
                 ("Container processing failed: " +s+ error_toString e) :: es, st2)
      end
  end.

Definition processShipment (shipmentId : string) (st : St CS)
    : list ShipmentAnalysisRecord * list ShipmentAnalysisError * St CS :=
  let shipmentResult := shipmentAdapter env shipmentId in
  match shipmentResult with
  | ResultData shipment _ => process_containers shipment (containers shipment) st
  | _ =>
      let errorType := if isFailure shipmentResult then "SHIPMENT_FETCH_ERROR"
                       else "SHIPMENT_NOT_FOUND" in
      ([buildErrorRecord shipmentId],
       [mkAnalysisError shipmentId errorType (result_message shipmentResult)], st)
  end.

(* The Promise.allSettled over one chunk; processShipment itself never
   rejects here (its containers are settled one by one). *)
Fixpoint process_chunk (chunk : list string) (st : St CS)
    : list ShipmentAnalysisRecord * list ShipmentAnalysisError * St CS :=
  match chunk with
  | [] => ([], [], st)
  | id :: rest =>
      let '(rs, es, st1) := processShipment id st in
      let '(rs', es', st2) := process_chunk rest st1 in
      (rs ++ rs', es ++ es', st2)
  end.

Fixpoint process_chunks (chunks : list (list string)) (st : St CS)
    : list ShipmentAnalysisRecord * list ShipmentAnalysisError * St CS :=
  match chunks with
  | [] => ([], [], st)
  | chunk :: rest =>
      let '(rs, es, st1) := process_chunk chunk st in
      let '(rs', es', st2) := process_chunks rest st1 in
      (rs ++ rs', es ++ es', st2)
  end.

Definition analyzeShipments (shipmentIds : list string) (st : St CS)
    : list ShipmentAnalysisRecord * list ShipmentAnalysisError * St CS :=
  process_chunks (chunkArray shipmentIds (batchSize env)) st.
End Analyzer.

(* ===================================================================== *)
(* index.ts: enrichRecordsWithErrors                                      *)
(* ===================================================================== *)

(* JavaScript truthiness of a Map.get result: undefined and "" are falsy. *)
Definition truthy (o : option string) : bool :=
  match o with
  | Some s => negb (String.eqb s "")
  | None => false
  end.

(* a || b on two Map.get results *)
Definition js_or (a b : option string) : option string :=
  if truthy a then a else b.

Definition errorEntry (e : ShipmentAnalysisError) : string :=
  errorType e +s+ ": " +s+ error_message e.

(* One iteration of the loop building errorMap. *)
Definition addError (errorMap : gmap string string) (e : ShipmentAnalysisError)
    : gmap string string :=
  let existingError := errorMap !! error_containerNumber e in
  let errorMsg := errorEntry e in
  <[error_containerNumber e :=
      if truthy existingError
      then default "" existingError +s+ "; " +s+ errorMsg
      else errorMsg]> errorMap.

Definition buildErrorMap (errors : list ShipmentAnalysisError) : gmap string string :=
  fold_left addError errors ∅.

Definition enrichRecord (errorMap : gmap string string) (timestamp : string)
    (r : ShipmentAnalysisRecord) : ShipmentAnalysisRecord :=
  {| sglShipmentNo := sglShipmentNo r; record_customerName := record_customerName r;
     record_shipperName := record_shipperName r; containerNumber := containerNumber r;
     record_scac := record_scac r; initialCarrierETA := initialCarrierETA r;
     actualArrivalAt := actualArrivalAt r; record_delayReasons := record_delayReasons r;
     record_temperature := record_temperature r; record_windSpeed := record_windSpeed r;
     weatherFetchStatus := weatherFetchStatus r;
     lastUpdated := timestamp;
     error := js_or (errorMap !! sglShipmentNo r)
                    (js_or (errorMap !! containerNumber r) None) |}.

Definition enrichRecordsWithErrors (records : list ShipmentAnalysisRecord)
    (errors : list ShipmentAnalysisError) (timestamp : string)
    : list ShipmentAnalysisRecord :=
  map (enrichRecord (buildErrorMap errors) timestamp) records.

(* The "; "-joined entries of the errors keyed by [k], in list order. *)
Definition entries_for (k : string) (errors : list ShipmentAnalysisError) : list string :=
  map errorEntry (List.filter (fun e => String.eqb (error_containerNumber e) k) errors).

Definition join_entries (es : list string) : option string :=
  match es with
  | [] => None
  | _ => Some (String.concat "; " es)
  end.

(* ===================================================================== *)
(* Vocabulary for the statements                                          *)
(* ===================================================================== *)

(* A gate verdict that counts for the weather determination. *)
Definition accepted_weather (v : option DelayAnalysisResult) : bool :=
  match v with Some a => isWeatherRelated a | None => false end.

(* The confidence gate run on each reason of a list in order, with its
   verdicts (None: discarded for low confidence). *)
Inductive gate_trace {CS} (env : Env CS) (cn : string)
  : list string -> list ShipmentAnalysisError -> St CS ->
    list (option DelayAnalysisResult) -> list ShipmentAnalysisError -> St CS -> Prop :=
| gate_nil errs st : gate_trace env cn [] errs st [] errs st
| gate_cons r rs errs st v errs1 st1 vs errs2 st2 :
    analyzeDelayWithConfidenceCheck env r cn errs st = (v, errs1, st1) ->
    gate_trace env cn rs errs1 st1 vs errs2 st2 ->
    gate_trace env cn (r :: rs) errs st (v :: vs) errs2 st2.

(* [stutter12 rs l]: l lists each reason of rs once or twice, in order. *)
Inductive stutter12 : list string -> list string -> Prop :=
| stutter_nil : stutter12 [] []
| stutter_once r rs l : stutter12 rs l -> stutter12 (r :: rs) (r :: l)
| stutter_twice r rs l : stutter12 rs l -> stutter12 (r :: rs) (r :: r :: l).

Definition is_invalid (d : Date) : bool :=
  match d with InvalidDate => true | ValidDate _ _ => false end.

(* The containers whose processing rejects: buildBaseRecord calls
   toISOString on an Invalid Date of the tracking record. *)
Definition container_raises {CS} (env : Env CS) (cn : string) : bool :=
  match trackingAdapter env cn with
  | ResultData t _ =>
      is_invalid (estimatedArrival t) ||
      match actualArrival t with Some d => is_invalid d | None => false end
  | _ => false
  end.

(* The records one input ID accounts for. *)
Definition records_for {CS} (env : Env CS) (shipmentId : string) : nat :=
  match shipmentAdapter env shipmentId with
  | ResultData s _ =>
      length (List.filter (fun c => negb (container_raises env (container_containerNumber c)))
                          (containers s))
  | _ => 1
  end.

(* C1 as the spec counts: one placeholder per unresolved ID, one record
   per container of a resolved shipment. *)
Definition spec_records_for {CS} (env : Env CS) (shipmentId : string) : nat :=
  match shipmentAdapter env shipmentId with
  | ResultData s _ => length (containers s)
  | _ => 1
  end.

(* C4 as the spec words it: all errors keyed by the record's shipment or
   container identifier, "; "-joined. *)
Definition spec_record_error (errors : list ShipmentAnalysisError)
    (r : ShipmentAnalysisRecord) : option string :=
  join_entries
    (map errorEntry
       (List.filter (fun e => String.eqb (error_containerNumber e) (sglShipmentNo r) ||
                              String.eqb (error_containerNumber e) (containerNumber r))
                    errors)).

(* What the code attaches: the entries keyed by the shipment identifier
   if there is one, otherwise those keyed by the container identifier. *)
Definition code_record_error (errors : list ShipmentAnalysisError)
    (r : ShipmentAnalysisRecord) : option string :=
  match join_entries (entries_for (sglShipmentNo r) errors) with
  | Some s => Some s
  | None => join_entries (entries_for (containerNumber r) errors)
  end.

(* The keyword analyzer as a (stateless) classifier. *)
Definition keywordAnalyzer (c : unit) (delayReason : string) : DelayAnalysisResult * unit :=
  (keyword_analyzeDelay delayReason, c).

Definition has_weather_keyword (delayReason : string) : bool :=
  existsb (fun keyword => includes (toLowerCase delayReason) keyword) weatherKeywords.

(* ===================================================================== *)
(* Concrete inputs (for witnesses and counterexamples)                    *)
(* ===================================================================== *)

(* A classifier that always answers [a]. *)
Definition fixedAnalyzer (a : DelayAnalysisResult) (c : unit) (_ : string)
    : DelayAnalysisResult * unit := (a, c).

Definition fogVerdict : DelayAnalysisResult :=
  {| isWeatherRelated := true; reasoning := "Heavy fog is a weather condition";
     confidence := 95 # 100 |}.

Definition demoShipment (id : string) (cns : list string) : Shipment :=
  {| shipmentId := id; customerName := "Acme"; shipperName := "Shipper";
     containers := map (fun cn => {| container_containerNumber := cn |}) cns |}.

Definition hamburg : GeoLocation :=
  {| latitude := 535511 # 10000; longitude := 99937 # 10000; name := Some "HAMBURG" |}.

(* Tracking of a container delayed by fog, arrived on local day 20000. *)
Definition fogTracking (cn : string) (port : option GeoLocation) : Tracking :=
  {| tracking_containerNumber := cn; scac := "MAEU";
     estimatedArrival := ValidDate 19999 10800000;
     actualArrival := Some (ValidDate 20000 52200000);
     delayReasons := ["Heavy fog"]; destinationPort := port |}.

Definition demoEnv (ships : string -> Result Shipment) (tracks : string -> Result Tracking)
    (weather : Q -> Q -> Date -> Outcome WeatherResult)
    (analyzer : unit -> string -> DelayAnalysisResult * unit) : Env unit :=
  {| shipmentAdapter := ships; trackingAdapter := tracks; weatherProvider := weather;
     delayAnalyzer := analyzer; batchSize := 5; clock := "2025-08-01T00:00:00.000Z";
     iso := fun _ _ => "2025-07-20T14:30:00.000Z"; numberToString := fun _ => "0.7" |}.

Definition st0 : St unit := mkSt tt [] 0.

(* C9: a fog delay on a container whose tracking lacks the port. *)
Definition noPortEnv : Env unit :=
  demoEnv (fun id => ResultData (demoShipment id ["CONT1"]) "Shipment found")
          (fun cn => ResultData (fogTracking cn None) "Tracking found")
          (fun _ _ _ => Returned (WeatherSuccess {| temperature := Some (18 # 1); windSpeed := Some (5 # 1);
                                                    windDirection := None |}))
          (fixedAnalyzer fogVerdict).

(* C10: the keyword analyzer as the active classifier. *)
Definition keywordEnv : Env unit :=
  demoEnv (fun id => ResultData (demoShipment id ["CONT1"]) "Shipment found")
          (fun cn => ResultData (fogTracking cn (Some hamburg)) "Tracking found")
          (fun _ _ _ => Returned (WeatherNoData None))
          keywordAnalyzer.

(* Whether a settled promise was rejected. *)
Definition is_threw {A} (o : Outcome A) : bool :=
  match o with Threw _ => true | Returned _ => false end.

(* C1: a tracking record whose initialCarrierETA did not parse
   (new Date("not a date") is an Invalid Date, not an exception). *)
Definition badEtaTracking (cn : string) : Tracking :=
  {| tracking_containerNumber := cn; scac := "MAEU";
     estimatedArrival := InvalidDate; actualArrival := None;
     delayReasons := []; destinationPort := None |}.

Definition badEtaEnv : Env unit :=
  demoEnv (fun id => ResultData (demoShipment id ["CONT1"]) "Shipment found")
          (fun cn => ResultData (badEtaTracking cn) "Tracking found")
          (fun _ _ _ => Returned (WeatherNoData None))
          (fixedAnalyzer fogVerdict).

(* C4: shipment S1 holds container C1, shipment S2 holds a container
   numbered S1; every tracking lookup fails. *)
Definition collisionEnv : Env unit :=
  demoEnv (fun id => if String.eqb id "S1" then ResultData (demoShipment "S1" ["C1"]) "Shipment found"
                     else ResultData (demoShipment id ["S1"]) "Shipment found")
          (fun cn => ResultFailure ("Tracking service unavailable for " +s+ cn))
          (fun _ _ _ => Returned (WeatherNoData None))
          (fixedAnalyzer fogVerdict).

(* C5: an Open-Meteo provider whose HTTP round trips all fail with [e];
   the arrival (local day 20000) is before today (local day 20100). *)
Definition networkTimeout : Error := mkError "Error" "Network timeout" None.

Definition badRequest : Error := mkError "Error" "HTTP 400: Bad Request" (Some 400%Z).

Definition demoRetry : RetryOptions :=
  {| maxRetries := 2; baseDelay := 1000; maxDelay := 10000; jitterFactor := 1 # 10 |}.

Definition failingProvider (e : Error) (latitude longitude : Q) (date : Date)
    : Outcome WeatherResult :=
  fst (getWeather (OpenMeteoResponse := unit) demoRetry (ValidDate 20100 0)
         (fun _ => "2025-07-20") (fun _ _ _ _ => Threw e)
         (fun _ _ => Returned (WeatherNoData None)) latitude longitude date).

Definition failingWeatherEnv (e : Error) : Env unit :=
  demoEnv (fun id => ResultData (demoShipment id ["CONT1"]) "Shipment found")
          (fun cn => ResultData (fogTracking cn (Some hamburg)) "Tracking found")
          (failingProvider e)
          (fixedAnalyzer fogVerdict).

(* ===================================================================== *)
(* utils/retry.util.ts: the backoff sleeps of retryWithBackoff            *)
(* ===================================================================== *)

Section RetrySleeps.
Context {T : Type}.
Variable operation : nat -> Outcome T.
Variable isRetryable : Error -> bool.
Variable options : RetryOptions.

(* The loop of retryWithBackoff as [retry_loop], also listing the attempts
   after which it awaits sleep(calculateDelay(attempt, options)). *)
Fixpoint retry_loop_sleeps (attempt fuel : nat) (lastError : option Error)
    : (T + RetryError) * nat * list nat :=
  match fuel with
  | O =>
      (inr (RetryExhaustedError
              ("Operation failed after " +s+ pretty (S (maxRetries options)) +s+ " attempts")
              (S (maxRetries options)) lastError), attempt, [])
  | S fuel' =>
      match operation attempt with
      | Returned v => (inl v, S attempt, [])
      | Threw e =>
          if negb (isRetryable e) then (inr (Rethrown e), S attempt, [])
          else
            let slept := if (attempt <? maxRetries options)%nat then [attempt] else [] in
            let '(r, n, sleeps) := retry_loop_sleeps (S attempt) fuel' (Some e) in
            (r, n, slept ++ sleeps)
      end
  end.

Definition retryWithBackoff_sleeps : (T + RetryError) * nat * list nat :=
  retry_loop_sleeps 0 (S (maxRetries options)) None.
End RetrySleeps.

(* isHttpRetryable(statusCode?): undefined and 0 are falsy. *)
Definition isHttpRetryable (statusCode : option Z) : bool :=
  match statusCode with
  | None => false
  | Some sc => if (sc =? 0)%Z then false else (sc =? 429)%Z || (500 <=? sc)%Z
  end.

(* ===================================================================== *)
(* OpenMeteoWeatherProvider: fetchWeatherData and parseWeatherResponse    *)
(* ===================================================================== *)

(* response.hourly: the hourly series of the archive API. *)
Record Hourly := {
  time : option (list string);
  temperature_2m : list (option Q);
  wind_speed_10m : list (option Q);
  wind_direction_10m : list (option Q)
}.

(* The fields of the JSON body that the provider reads. *)
Record OpenMeteoResponse := {
  hourly : option Hourly;
  api_error : option bool;     (* data.error *)
  reason : option string
}.

(* What fetch resolves to: response.ok, status, statusText and what
   response.json() does. *)
Record FetchResponse := {
  ok : bool;
  status : Z;
  statusText : string;
  json : Outcome OpenMeteoResponse
}.

Definition openMeteoBaseUrl : string := "https://archive-api.open-meteo.com/v1/archive".

(* s.split('T')[0] *)
Fixpoint before_T (s : string) : string :=
  match s with
  | EmptyString => EmptyString
  | String c s' => if Ascii.eqb c "T"%char then EmptyString else String c (before_T s')
  end.

(* The error thrown on a response that is not ok. *)
Definition httpError (status : Z) (statusText : string) : Error :=
  mkError "Error" ("HTTP " +s+ pretty status +s+ ": " +s+ statusText) (Some status).

(* The error thrown on a body with error: true. *)
Definition apiError (reason : option string) : Error :=
  mkError "Error" ("Open-Meteo API error: " +s+ default "" (js_or reason (Some "Unknown error"))) None.

Section OpenMeteoFetch.
(* toISOString of a valid Date and latitude.toString() *)
Variable iso : Z -> Z -> string.
Variable numberToString : Q -> string.
(* [fetch url params n]: what the call of fetch in the n-th invocation of
   fetchWeatherData does, on the URL with the query [params] (in the
   order searchParams.set adds them). *)
Variable fetch : string -> list (string * string) -> nat -> Outcome FetchResponse.

Definition requestParams (latitude longitude : Q) (dateStr : string) : list (string * string) :=
  [("latitude", numberToString latitude); ("longitude", numberToString longitude);
   ("start_date", dateStr); ("end_date", dateStr);
   ("hourly", "temperature_2m,wind_speed_10m,wind_direction_10m"); ("timezone", "UTC")].

Definition fetchWeatherData (latitude longitude : Q) (date : Date) (n : nat)
    : Outcome OpenMeteoResponse :=
  match toISOString iso date with
  | Threw e => Threw e
  | Returned isoString =>
      let dateStr := before_T isoString in
      match fetch openMeteoBaseUrl (requestParams latitude longitude dateStr) n with
      | Threw e => Threw e
      | Returned response =>
          if negb (ok response) then Threw (httpError (status response) (statusText response))
          else
            match json response with
            | Threw e => Threw e
            | Returned data =>
                match api_error data with
                | Some true => Threw (apiError (reason data))
                | _ => Returned data
                end
            end
      end
  end.
End OpenMeteoFetch.

(* n.toString().padStart(2, '0') *)
Definition padStart2 (s : string) : string :=
  match String.length s with
  | O => "00"
  | S O => "0" +s+ s
  | _ => s
  end.

(* The string of getUTCHours(): None is NaN. *)
Definition hourString (h : option Z) : string :=
  match h with Some z => pretty z | None => "NaN" end.

(* array.findIndex(p); None stands for -1. *)
Fixpoint findIndex {A} (p : A -> bool) (l : list A) : option nat :=
  match l with
  | [] => None
  | x :: l' => if p x then Some 0%nat else option_map S (findIndex p l')
  end.

(* Math.round(x * 10) / 10 (Math.round rounds halves up), in exact
   arithmetic. *)
Definition round1 (x : Q) : Q := (inject_Z (Qfloor (x * 10 + (1 # 2))) / 10)%Q.

(* arr[index] of an array of numbers and nulls: None for null and for an
   index past the end (undefined). *)
Definition at_index (l : list (option Q)) (i : nat) : option Q :=
  match nth_error l i with Some v => v | None => None end.

Section OpenMeteoParse.
(* targetDate.getUTCHours(); None for an Invalid Date (NaN). *)
Variable getUTCHours : Date -> option Z.

Definition parseWeatherResponse (response : OpenMeteoResponse) (targetDate : Date)
    : WeatherResult :=
  match hourly response with
  | None => WeatherNoData (Some "No hourly data returned from API")
  | Some hourlyData =>
      match time hourlyData with
      | None | Some [] => WeatherNoData (Some "No hourly data returned from API")
      | Some times =>
          let targetHourStr := padStart2 (hourString (getUTCHours targetDate)) in
          match findIndex (fun t => includes t ("T" +s+ targetHourStr +s+ ":")) times with
          | None => WeatherNoData (Some ("No data found for hour " +s+ targetHourStr +s+ ":00 UTC"))
          | Some index =>
              match at_index (temperature_2m hourlyData) index with
              | None => WeatherNoData (Some "Temperature data is null")
              | Some tempCelsius =>
                  match at_index (wind_speed_10m hourlyData) index with
                  | None => WeatherNoData (Some "Wind speed data is null")
                  | Some windSpeedKmh =>
                      let windSpeedMs := (windSpeedKmh / (36 # 10))%Q in
                      WeatherSuccess {| temperature := Some (round1 tempCelsius);
                                        windSpeed := Some (round1 windSpeedMs);
                                        windDirection := at_index (wind_direction_10m hourlyData) index |}
                  end
              end
          end
      end
  end.
End OpenMeteoParse.

(* date.toISOString().split('T')[0] for the message of the future-date
   branch, where the date is valid. *)
Definition isoDay (iso : Z -> Z -> string) (d : Date) : string :=
  match toISOString iso d with Returned s => before_T s | Threw _ => "" end.

(* OpenMeteoWeatherProvider.getWeather with its own fetchWeatherData and
   parseWeatherResponse (which returns, so the try block cannot throw
   after the request). *)
Definition openMeteoGetWeather (config_retry : RetryOptions) (now : Date)
    (iso : Z -> Z -> string) (numberToString : Q -> string)
    (fetch : string -> list (string * string) -> nat -> Outcome FetchResponse)
    (getUTCHours : Date -> option Z) (latitude longitude : Q) (date : Date)
    : Outcome WeatherResult * nat :=
  getWeather config_retry now (isoDay iso) (fetchWeatherData iso numberToString fetch)
    (fun response d => Returned (parseWeatherResponse getUTCHours response d))
    latitude longitude date.

(* ===================================================================== *)
(* Vocabulary for the orchestration properties                            *)
(* ===================================================================== *)

(* 1 when the container's tracking is found with a port and an arrival:
   the containers for which the weather provider may be called. *)
Definition weather_eligible {CS} (env : Env CS) (cn : string) : nat :=
  match trackingAdapter env cn with
  | ResultData t _ =>
      match destinationPort t, actualArrival t with
      | Some _, Some _ => 1
      | _, _ => 0
      end
  | _ => 0
  end.

(* The number of delay reasons of the container's found tracking. *)
Definition reason_count {CS} (env : Env CS) (cn : string) : nat :=
  match trackingAdapter env cn with
  | ResultData t _ => length (delayReasons t)
  | _ => 0
  end.

(* [f] summed over the containers of the shipment fetched for an ID. *)
Definition per_container {CS} (env : Env CS) (f : string -> nat) (shipmentId : string) : nat :=
  match shipmentAdapter env shipmentId with
  | ResultData s _ => list_sum (map (fun c => f (container_containerNumber c)) (containers s))
  | _ => 0
  end.

(* The keys an error entry of analyzeShipments may carry. *)
Definition error_key_ok {CS} (env : Env CS) (ids : list string) (k : string) : Prop :=
  k = "unknown" \/ In k ids \/
  exists id s m, In id ids /\ shipmentAdapter env id = ResultData s m /\
                 In k (map container_containerNumber (containers s)).

Definition errorTypes : list string :=
  ["SHIPMENT_FETCH_ERROR"; "SHIPMENT_NOT_FOUND"; "TRACKING_FETCH_ERROR";
   "DELAY_ANALYSIS_LOW_CONFIDENCE"; "WEATHER_FETCH_ERROR"].

(* A concrete Open-Meteo setting for the witnesses. *)
Definition demoIso (day ms : Z) : string := "2025-07-20T14:30:00.000Z".

Definition failingFetch (response : FetchResponse)
    : string -> list (string * string) -> nat -> Outcome FetchResponse :=
  fun _ _ _ => Returned response.

Definition serviceUnavailable : FetchResponse :=
  {| ok := false; status := 503; statusText := "Service Unavailable";
     json := Threw (mkError "SyntaxError" "Unexpected token" None) |}.

Definition apiErrorResponse : FetchResponse :=
  {| ok := true; status := 400; statusText := "Bad Request";
     json := Returned {| hourly := None; api_error := Some true; reason := None |} |}.

Definition archiveResponse : OpenMeteoResponse :=
  {| hourly := Some {| time := Some ["2025-07-20T14:00"];
                       temperature_2m := [Some (2134 # 100)%Q];
                       wind_speed_10m := [Some 18%Q];
                       wind_direction_10m := [Some 270%Q] |};
     api_error := None; reason := None |}.

Definition archiveFetchResponse : FetchResponse :=
  {| ok := true; status := 200; statusText := "OK"; json := Returned archiveResponse |}.

(* The shape of every record analyzeShipments returns: no error text,
   and weather values only beside a SUCCESS status. *)
Definition record_ok (r : ShipmentAnalysisRecord) : Prop :=
  error r = None /\
  ((record_temperature r <> None \/ record_windSpeed r <> None) ->
   weatherFetchStatus r = Some SUCCESS).

(* From state st to st': at most w more weather calls, and at most c
   more classifier calls, appended to the log of the earlier ones. *)
Definition st_grows {CS} (st st' : St CS) (w c : nat) : Prop :=
  (weatherCalls st' <= weatherCalls st + w)%nat /\
  exists new, classified st' = classified st ++ new /\ (length new <= c)%nat.


(* ===================================================================== *)
(* Retry engine: proofs                                                   *)
(* ===================================================================== *)

Section RetryProofs.
Context {T : Type}.
Variable operation : nat -> Outcome T.
Variable isRetryable : Error -> bool.
Variable options : RetryOptions.

Local Abbreviation loop := (retry_loop operation isRetryable options).
Local Abbreviation fails := (fails_retryably operation isRetryable).

Lemma retry_loop_invocations f : forall a l, snd (loop a f l) <= a + f.
Proof.
  induction f as [|f IH]; intros a l; simpl; [lia|].
  destruct (operation a) as [v|e]; simpl; [lia|].
  destruct (isRetryable e); simpl; [|lia].
  specialize (IH (S a) (Some e)). lia.
Qed.

Lemma retry_loop_rethrow f : forall a l k e,
  a <= k < a + f ->
  (forall j, a <= j < k -> fails j) ->
  operation k = Threw e -> isRetryable e = false ->
  loop a f l = (inr (Rethrown e), S k).
Proof.
  induction f as [|f IH]; intros a l k e Hk Hpre Hop Hr; simpl; [lia|].
  destruct (Nat.eq_dec k a) as [->|Hne].
  - rewrite Hop, Hr. reflexivity.
  - destruct (Hpre a) as (e' & Hop' & Hr'); [lia|].
    rewrite Hop', Hr'. simpl.
    apply IH; [lia| |assumption|assumption].
    intros j Hj. apply Hpre. lia.
Qed.

Lemma retry_loop_exhausted f : forall a l msg x l' n,
  loop a f l = (inr (RetryExhaustedError msg x l'), n) ->
  (forall j, a <= j < a + f -> fails j) /\ x = S (maxRetries options) /\ n = a + f /\
  ((f = 0 /\ l' = l) \/ exists e, l' = Some e /\ operation (a + f - 1) = Threw e).
Proof.
  induction f as [|f IH]; intros a l msg x l' n H; simpl in H.
  - inversion H; subst. repeat split; try lia. left. auto.
  - destruct (operation a) as [v|e] eqn:Hop; [discriminate|].
    destruct (isRetryable e) eqn:Hr; simpl in H; [|discriminate].
    destruct (IH _ _ _ _ _ _ H) as (Hall & Hx & Hn & Hl).
    repeat split; [|assumption|lia|].
    + intros j Hj. destruct (Nat.eq_dec j a) as [->|Hne].
      * exists e. auto.
      * apply Hall. lia.
    + right. destruct Hl as [[-> ->]|(e' & -> & Hop')].
      * exists e. split; [reflexivity|]. replace (a + 1 - 1) with a by lia. assumption.
      * exists e'. split; [reflexivity|]. replace (a + S f - 1) with (S a + f - 1) by lia.
        assumption.
Qed.

Lemma retry_loop_all_fail f : forall a l,
  (forall j, a <= j < a + f -> fails j) ->
  exists msg l', loop a f l = (inr (RetryExhaustedError msg (S (maxRetries options)) l'), a + f).
Proof.
  induction f as [|f IH]; intros a l Hall; simpl.
  - rewrite Nat.add_0_r. eauto.
  - destruct (Hall a) as (e & Hop & Hr); [lia|].
    rewrite Hop, Hr. simpl.
    destruct (IH (S a) (Some e)) as (msg & l' & H).
    + intros j Hj. apply Hall. lia.
    + replace (a + S f) with (S a + f) by lia. eauto.
Qed.

(** C6: retryWithBackoff calls the operation at most maxRetries + 1
    times; a failure for which isRetryable is false (after retryable
    failures only) is re-raised as it is, at once; and it raises a
    RetryExhaustedError exactly when all maxRetries + 1 attempts fail
    retryably, carrying attempts = maxRetries + 1 and the last error. *)
Theorem retryWithBackoff_contract :
  snd (retryWithBackoff operation isRetryable options) <= S (maxRetries options) /\
  (forall k e,
     k <= maxRetries options ->
     (forall j, j < k -> fails j) ->
     operation k = Threw e -> isRetryable e = false ->
     retryWithBackoff operation isRetryable options = (inr (Rethrown e), S k)) /\
  ((exists msg attempts lastError,
      fst (retryWithBackoff operation isRetryable options)
      = inr (RetryExhaustedError msg attempts lastError))
   <-> (forall j, j <= maxRetries options -> fails j)) /\
  (forall msg attempts lastError,
     fst (retryWithBackoff operation isRetryable options)
     = inr (RetryExhaustedError msg attempts lastError) ->
     attempts = S (maxRetries options) /\
     snd (retryWithBackoff operation isRetryable options) = S (maxRetries options) /\
     exists e, lastError = Some e /\ operation (maxRetries options) = Threw e).
Proof.
  unfold retryWithBackoff. repeat split.
  - apply (retry_loop_invocations (S (maxRetries options)) 0 None).
  - intros k e Hk Hpre Hop Hr. apply retry_loop_rethrow; auto; [lia|].
    intros j Hj. apply Hpre. lia.
  - intros (msg & x & l' & H).
    destruct (loop 0 (S (maxRetries options)) None) as [r n] eqn:E. simpl in H. subst r.
    destruct (retry_loop_exhausted _ _ _ _ _ _ _ E) as (Hall & _).
    intros j Hj. apply Hall. lia.
  - intros Hall.
    destruct (retry_loop_all_fail (S (maxRetries options)) 0 None) as (msg & l' & ->).
    + intros j Hj. apply Hall. lia.
    + simpl. eauto.
  - destruct (loop 0 (S (maxRetries options)) None) as [r n] eqn:E. cbn [fst snd] in *. subst r.
    destruct (retry_loop_exhausted _ _ _ _ _ _ _ E) as (_ & Hx & _). assumption.
  - destruct (loop 0 (S (maxRetries options)) None) as [r n] eqn:E. cbn [fst snd] in *. subst r.
    destruct (retry_loop_exhausted _ _ _ _ _ _ _ E) as (_ & _ & Hn & _). lia.
  - destruct (loop 0 (S (maxRetries options)) None) as [r n] eqn:E. cbn [fst snd] in *. subst r.
    destruct (retry_loop_exhausted _ _ _ _ _ _ _ E) as (_ & _ & _ & Hl).
    destruct Hl as [[Hf _]|(e & He & Hop)]; [lia|].
    exists e. split; [assumption|].
    replace (maxRetries options) with (0 + S (maxRetries options) - 1) by lia.
    assumption.
Qed.
End RetryProofs.

(* ===================================================================== *)
(* Open-Meteo provider: the future-date rule                              *)
(* ===================================================================== *)

(** C7: when the arrival date (time of day ignored) is strictly after
    today's date, getWeather returns NO_DATA_AVAILABLE and makes no HTTP
    request, whatever the network would have answered. *)
Theorem getWeather_future_date {OpenMeteoResponse : Type}
    (config_retry : RetryOptions) (today_day today_ms : Z) (isoDate : Date -> string)
    (fetchWeatherData : Q -> Q -> Date -> nat -> Outcome OpenMeteoResponse)
    (parseWeatherResponse : OpenMeteoResponse -> Date -> Outcome WeatherResult)
    (latitude longitude : Q) (day ms : Z)
    (Hfuture : (today_day < day)%Z) :
  exists err,
    getWeather config_retry (ValidDate today_day today_ms) isoDate fetchWeatherData
      parseWeatherResponse latitude longitude (ValidDate day ms)
    = (Returned (WeatherNoData err), 0%nat) /\
    weather_status (WeatherNoData err) = NO_DATA_AVAILABLE.
Proof.
  unfold getWeather, date_gt, setHours0, date_value, ms_per_day.
  replace ((today_day * 86400000 + 0 <? day * 86400000 + 0)%Z) with true.
  - eexists. split; reflexivity.
  - symmetry. apply Z.ltb_lt. lia.
Qed.

Lemma getWeather_future_date_witness :
  (20000 < 20001)%Z /\
  exists err,
    getWeather (OpenMeteoResponse := unit)
      {| maxRetries := 3; baseDelay := 1000; maxDelay := 10000; jitterFactor := 1 # 10 |}
      (ValidDate 20000 43200000) (fun _ => "2024-10-04")
      (fun _ _ _ _ => Returned tt) (fun _ _ => Returned (WeatherNoData None))
      (53 # 1) (10 # 1) (ValidDate 20001 0)
    = (Returned (WeatherNoData err), 0%nat) /\
    weather_status (WeatherNoData err) = NO_DATA_AVAILABLE.
Proof.
  split; [lia|].
  apply (getWeather_future_date
           {| maxRetries := 3; baseDelay := 1000; maxDelay := 10000; jitterFactor := 1 # 10 |}
           20000 43200000 (fun _ => "2024-10-04")
           (fun _ _ _ _ => Returned tt) (fun _ _ => Returned (WeatherNoData None))
           (53 # 1) (10 # 1) 20001 0).
  lia.
Defined.

(* ===================================================================== *)
(* The confidence gate and the weather determination                      *)
(* ===================================================================== *)

Section GateProofs.
Context {CS : Type}.
Variable env : Env CS.

Lemma Qle_bool_false (x y : Q) : Qle_bool x y = false <-> (y < x)%Q.
Proof.
  split; intro H.
  - apply Qnot_le_lt. intro Hle. apply Qle_bool_iff in Hle. congruence.
  - destruct (Qle_bool x y) eqn:E; [|reflexivity].
    apply Qle_bool_iff in E. exfalso. apply (Qlt_not_le y x); assumption.
Qed.

(** C2: per delay reason the classifier is called once or twice.  A
    first verdict with confidence >= 0.8 is accepted after one call;
    otherwise a second call is made and its verdict is accepted iff its
    confidence is >= 0.8; when both are below 0.8 the verdict is
    discarded (the weather determination goes on with the next reason as
    if this one were absent) and exactly one DELAY_ANALYSIS_LOW_CONFIDENCE
    error carrying the final confidence and the reason is appended. *)
Theorem analyzeDelayWithConfidenceCheck_gate
    (delayReason cn : string) (errors : list ShipmentAnalysisError) (st : St CS) :
  let '(a1, c1) := delayAnalyzer env (classifier st) delayReason in
  let '(a2, _) := delayAnalyzer env c1 delayReason in
  let '(verdict, errors', st') :=
    analyzeDelayWithConfidenceCheck env delayReason cn errors st in
  (classified st' = classified st ++ [delayReason] \/
   classified st' = classified st ++ [delayReason; delayReason]) /\
  ((CONFIDENCE_THRESHOLD <= confidence a1)%Q ->
     classified st' = classified st ++ [delayReason] /\
     verdict = Some a1 /\ errors' = errors) /\
  ((confidence a1 < CONFIDENCE_THRESHOLD)%Q ->
     classified st' = classified st ++ [delayReason; delayReason] /\
     ((CONFIDENCE_THRESHOLD <= confidence a2)%Q -> verdict = Some a2 /\ errors' = errors) /\
     ((confidence a2 < CONFIDENCE_THRESHOLD)%Q ->
        verdict = None /\
        errors' = errors ++
          [mkAnalysisError cn "DELAY_ANALYSIS_LOW_CONFIDENCE"
             (lowConfidenceMessage (numberToString env) (confidence a2) delayReason)] /\
        forall rest,
          weather_loop env (delayReason :: rest) cn errors st =
          weather_loop env rest cn errors' st')).
Proof.
  unfold analyzeDelayWithConfidenceCheck, callAnalyzer.
  destruct (delayAnalyzer env (classifier st) delayReason) as [a1 c1] eqn:E1.
  cbv beta iota zeta. cbn [classifier classified weatherCalls].
  destruct (delayAnalyzer env c1 delayReason) as [a2 c2] eqn:E2.
  cbv beta iota zeta. cbn [classifier classified weatherCalls].
  destruct (Qle_bool CONFIDENCE_THRESHOLD (confidence a1)) eqn:H1;
    cbv beta iota zeta; pose proof H1 as H1b.
  - apply Qle_bool_iff in H1. split; [left; reflexivity|]. split.
    + intros _. auto.
    + intros H. exfalso. apply (Qlt_not_le _ _ H H1).
  - apply Qle_bool_false in H1.
    destruct (Qle_bool CONFIDENCE_THRESHOLD (confidence a2)) eqn:H2;
      cbv beta iota zeta; pose proof H2 as H2b.
    + apply Qle_bool_iff in H2. cbn [classified].
      rewrite <- app_assoc. split; [right; reflexivity|]. split.
      * intros H. exfalso. apply (Qlt_not_le _ _ H1 H).
      * intros _. split; [reflexivity|]. split; [auto|].
        intros H. exfalso. apply (Qlt_not_le _ _ H H2).
    + apply Qle_bool_false in H2. cbn [classified].
      rewrite <- app_assoc. split; [right; reflexivity|]. split.
      * intros H. exfalso. apply (Qlt_not_le _ _ H1 H).
      * intros _. split; [reflexivity|]. split.
        -- intros H. exfalso. apply (Qlt_not_le _ _ H2 H).
        -- intros _. split; [reflexivity|]. split; [reflexivity|].
           intros rest. cbn [weather_loop].
           unfold analyzeDelayWithConfidenceCheck, callAnalyzer.
           rewrite E1. cbv beta iota zeta. cbn [classifier classified weatherCalls].
           rewrite E2. cbv beta iota zeta.
           rewrite H1b, H2b. rewrite app_assoc. reflexivity.
Qed.
Lemma gate_step_shape (r cn : string) (errs : list ShipmentAnalysisError) (st : St CS) :
  let '(_, _, st') := analyzeDelayWithConfidenceCheck env r cn errs st in
  weatherCalls st' = weatherCalls st /\
  (classified st' = classified st ++ [r] \/ classified st' = classified st ++ [r; r]).
Proof.
  unfold analyzeDelayWithConfidenceCheck, callAnalyzer.
  destruct (delayAnalyzer env (classifier st) r) as [a1 c1].
  cbv beta iota zeta. cbn [classifier classified weatherCalls].
  destruct (delayAnalyzer env c1 r) as [a2 c2].
  cbv beta iota zeta.
  destruct (Qle_bool CONFIDENCE_THRESHOLD (confidence a1)); cbv beta iota zeta;
    [split; [reflexivity|left; reflexivity]|].
  destruct (Qle_bool CONFIDENCE_THRESHOLD (confidence a2)); cbv beta iota zeta;
    cbn [classified weatherCalls]; rewrite <- app_assoc; split; auto.
Qed.

Lemma weather_loop_true reasons : forall cn errs st e' s',
  weather_loop env reasons cn errs st = (true, e', s') ->
  exists pre r post vs errs1 st1 a,
    reasons = pre ++ r :: post /\
    gate_trace env cn pre errs st vs errs1 st1 /\
    Forall (fun v => accepted_weather v = false) vs /\
    analyzeDelayWithConfidenceCheck env r cn errs1 st1 = (Some a, e', s') /\
    isWeatherRelated a = true.
Proof.
  induction reasons as [|r rest IH]; intros cn errs st e' s' H; [discriminate|].
  cbn [weather_loop] in H.
  destruct (analyzeDelayWithConfidenceCheck env r cn errs st) as [[v errs1] st1] eqn:G.
  destruct v as [a|].
  - destruct (isWeatherRelated a) eqn:Wa.
    + inversion H; subst.
      exists [], r, rest, [], errs, st, a. repeat split; auto. constructor.
    + destruct (IH _ _ _ _ _ H) as (pre & r' & post & vs & e1 & s1 & a' & -> & T & F & G' & W).
      exists (r :: pre), r', post, (Some a :: vs), e1, s1, a'.
      repeat split; auto.
      all: try (econstructor; eauto).
  - destruct (IH _ _ _ _ _ H) as (pre & r' & post & vs & e1 & s1 & a' & -> & T & F & G' & W).
    exists (r :: pre), r', post, (None :: vs), e1, s1, a'.
    repeat split; auto.
    all: try (econstructor; eauto).
Qed.

Lemma weather_loop_true_intro pre : forall r post cn errs st vs errs1 st1 a e2 s2,
  gate_trace env cn pre errs st vs errs1 st1 ->
  Forall (fun v => accepted_weather v = false) vs ->
  analyzeDelayWithConfidenceCheck env r cn errs1 st1 = (Some a, e2, s2) ->
  isWeatherRelated a = true ->
  weather_loop env (pre ++ r :: post) cn errs st = (true, e2, s2).
Proof.
  induction pre as [|r0 pre IH]; intros r post cn errs st vs errs1 st1 a e2 s2 T F G W.
  - inversion T; subst. cbn [weather_loop app]. rewrite G, W. reflexivity.
  - inversion T as [|r1 rs1 e0 s0 v e1' s1' vs1 e2' s2' Gr Tr]; subst.
    inversion F as [|v' vs' Hv Fr]; subst.
    cbn [weather_loop app]. rewrite Gr.
    destruct v as [a0|]; [|eapply IH; eauto].
    cbn in Hv. rewrite Hv. eapply IH; eauto.
Qed.

Lemma weather_loop_false reasons : forall cn errs st e' s',
  weather_loop env reasons cn errs st = (false, e', s') ->
  exists vs, gate_trace env cn reasons errs st vs e' s' /\
             Forall (fun v => accepted_weather v = false) vs.
Proof.
  induction reasons as [|r rest IH]; intros cn errs st e' s' H.
  - inversion H; subst. exists []. split; constructor.
  - cbn [weather_loop] in H.
    destruct (analyzeDelayWithConfidenceCheck env r cn errs st) as [[v errs1] st1] eqn:G.
    assert (Hv : accepted_weather v = false /\
                 weather_loop env rest cn errs1 st1 = (false, e', s')).
    { destruct v as [a|]; cbn in *;
        [destruct (isWeatherRelated a); [discriminate|]|]; split; auto. }
    destruct Hv as [Hv Hrest].
    destruct (IH _ _ _ _ _ Hrest) as (vs & T & F).
    exists (v :: vs). split; [econstructor; eauto|constructor; auto].
Qed.

Lemma gate_trace_classified reasons : forall cn errs st vs e s,
  gate_trace env cn reasons errs st vs e s ->
  weatherCalls s = weatherCalls st /\
  exists L, classified s = classified st ++ L /\ stutter12 reasons L.
Proof.
  intros cn errs st vs e s T. induction T as [errs st|r rs errs st v errs1 st1 vs errs2 st2 G T IH].
  - split; [reflexivity|]. exists []. rewrite app_nil_r. split; [reflexivity|constructor].
  - pose proof (gate_step_shape r cn errs st) as S. rewrite G in S.
    destruct S as [Wc [Hc|Hc]]; destruct IH as [Wc' (L & HL & SL)];
      (split; [congruence|]).
    + exists (r :: L). split; [rewrite HL, Hc, <- app_assoc; reflexivity|constructor; auto].
    + exists (r :: r :: L). split; [rewrite HL, Hc, <- app_assoc; reflexivity|].
      apply stutter_twice; assumption.
Qed.

Lemma stutter12_app pre L r L2 :
  stutter12 pre L -> stutter12 [r] L2 -> stutter12 (pre ++ [r]) (L ++ L2).
Proof.
  induction 1; intros H2; cbn;
    [exact H2 | apply stutter_once; auto | apply stutter_twice; auto].
Qed.

Lemma weather_loop_weatherCalls reasons : forall cn errs st,
  weatherCalls (snd (weather_loop env reasons cn errs st)) = weatherCalls st.
Proof.
  induction reasons as [|r rest IH]; intros cn errs st; [reflexivity|].
  cbn [weather_loop].
  pose proof (gate_step_shape r cn errs st) as S.
  destruct (analyzeDelayWithConfidenceCheck env r cn errs st) as [[v errs1] st1].
  destruct S as [Wc _].
  destruct v as [a|]; [destruct (isWeatherRelated a)|]; cbn; try rewrite IH; auto.
Qed.
Lemma buildBaseRecord_status (shipment : Shipment) (cn : string) (tracking : option Tracking)
    (r : ShipmentAnalysisRecord) :
  buildBaseRecord env shipment cn tracking = Returned r -> weatherFetchStatus r = None.
Proof.
  unfold buildBaseRecord.
  destruct (optISOString env _); [|discriminate].
  destruct (optISOString env _); [|discriminate].
  intros H. inversion H. reflexivity.
Qed.

(** C3: the reasons are gated in list order; the determination is true
    iff some reason yields an accepted weather-related verdict after
    only reasons without one, and then the classifier has seen exactly
    the reasons up to that one (each once or twice) and none after it;
    when false, every reason was gated and none yielded an accepted
    weather-related verdict (discarded verdicts included).  In
    processContainer the weather fetch is entered (weatherFetchStatus
    set) iff the determination is true; otherwise the weather provider
    is not called. *)
Theorem hasWeatherRelatedDelay_short_circuit (shipment : Shipment) (tracking : Tracking)
    (cn : string) (errors : list ShipmentAnalysisError) (st : St CS) :
  (let '(b, errors', st') := hasWeatherRelatedDelay env tracking cn errors st in
   (b = true <->
      exists pre r post vs errs1 st1 a,
        delayReasons tracking = pre ++ r :: post /\
        gate_trace env cn pre errors st vs errs1 st1 /\
        Forall (fun v => accepted_weather v = false) vs /\
        analyzeDelayWithConfidenceCheck env r cn errs1 st1 = (Some a, errors', st') /\
        isWeatherRelated a = true) /\
   (b = true ->
      exists pre r post L,
        delayReasons tracking = pre ++ r :: post /\
        classified st' = classified st ++ L /\ stutter12 (pre ++ [r]) L) /\
   (b = false ->
      exists vs,
        gate_trace env cn (delayReasons tracking) errors st vs errors' st' /\
        Forall (fun v => accepted_weather v = false) vs)) /\
  match processContainer env shipment cn st with
  | (Returned (record, _), st') =>
      match trackingAdapter env cn with
      | ResultData t _ =>
          let b := fst (fst (hasWeatherRelatedDelay env t cn [] st)) in
          (weatherFetchStatus record <> None <-> b = true) /\
          (b = false -> weatherCalls st' = weatherCalls st)
      | _ => weatherFetchStatus record = None /\ weatherCalls st' = weatherCalls st
      end
  | (Threw _, st') => st' = st
  end.
Proof.
  split.
  - destruct (hasWeatherRelatedDelay env tracking cn errors st) as [[b e'] s'] eqn:H.
    unfold hasWeatherRelatedDelay in H. destruct b.
    + destruct (weather_loop_true _ _ _ _ _ _ H)
        as (pre & r & post & vs & e1 & s1 & a & Hr & T & F & G & W).
      split; [split; [intros _; exists pre, r, post, vs, e1, s1, a; auto|reflexivity]|].
      split; [|discriminate].
      intros _. exists pre, r, post.
      destruct (gate_trace_classified _ _ _ _ _ _ _ T) as [_ (L1 & HL1 & S1)].
      pose proof (gate_step_shape r cn e1 s1) as Sh. rewrite G in Sh.
      destruct Sh as [_ [Hc|Hc]].
      * exists (L1 ++ [r]). split; [assumption|]. split.
        -- rewrite Hc, HL1, app_assoc. reflexivity.
        -- apply stutter12_app; [assumption|apply stutter_once; constructor].
      * exists (L1 ++ [r; r]). split; [assumption|]. split.
        -- rewrite Hc, HL1, app_assoc. reflexivity.
        -- apply stutter12_app; [assumption|apply stutter_twice; constructor].
    + split; [split; [discriminate|]|].
      * intros (pre & r & post & vs & e1 & s1 & a & Hr & T & F & G & W).
        rewrite Hr in H.
        rewrite (weather_loop_true_intro pre r post cn errors st vs e1 s1 a e' s' T F G W) in H.
        discriminate.
      * split; [discriminate|]. intros _. apply (weather_loop_false _ _ _ _ _ _ H).
  - unfold processContainer.
    destruct (trackingAdapter env cn) as [t m|m|m] eqn:Tr; cbv beta iota zeta.
    + destruct (buildBaseRecord env shipment cn (Some t)) as [record|e] eqn:B; [|reflexivity].
      cbv beta iota zeta.
      destruct (hasWeatherRelatedDelay env t cn [] st) as [[b e1] s1] eqn:Hw.
      cbv beta iota zeta. cbn [fst].
      destruct b.
      * destruct (fetchWeatherSafely env t cn e1 s1) as [[w e2] s2].
        cbv beta iota zeta. split; [|discriminate]. split; [reflexivity|].
        intros _. unfold applyWeather. destruct w; cbn; discriminate.
      * rewrite (buildBaseRecord_status _ _ _ _ B). split; [split; [|discriminate]|].
        -- intros Hn. exfalso. apply Hn. reflexivity.
        -- intros _. unfold hasWeatherRelatedDelay in Hw.
           pose proof (weather_loop_weatherCalls (delayReasons t) cn [] st) as Wc.
           rewrite Hw in Wc. exact Wc.
    + destruct (buildBaseRecord env shipment cn None) as [record|e] eqn:B; [|reflexivity].
      cbv beta iota zeta. split; [apply (buildBaseRecord_status _ _ _ _ B)|reflexivity].
    + destruct (buildBaseRecord env shipment cn None) as [record|e] eqn:B; [|reflexivity].
      cbv beta iota zeta. split; [apply (buildBaseRecord_status _ _ _ _ B)|reflexivity].
Qed.
End GateProofs.

(* ===================================================================== *)
(* Tracking resolution and the weather preconditions                      *)
(* ===================================================================== *)

Section ContainerProofs.
Context {CS : Type}.
Variable env : Env CS.

(** C8: a tracking lookup that finds nothing appends no error and yields
    the base record with only the shipment-level fields set; a failing
    lookup yields that same record and exactly one TRACKING_FETCH_ERROR. *)
Theorem processContainer_tracking_tristate (shipment : Shipment) (cn : string) (st : St CS) :
  let base :=
    {| sglShipmentNo := shipmentId shipment;
       record_customerName := customerName shipment;
       record_shipperName := shipperName shipment;
       containerNumber := cn;
       record_scac := None; initialCarrierETA := None; actualArrivalAt := None;
       record_delayReasons := None; record_temperature := None; record_windSpeed := None;
       weatherFetchStatus := None; lastUpdated := clock env; error := None |} in
  match trackingAdapter env cn with
  | ResultNotFound _ => processContainer env shipment cn st = (Returned (base, []), st)
  | ResultFailure m =>
      processContainer env shipment cn st =
      (Returned (base, [mkAnalysisError cn "TRACKING_FETCH_ERROR" m]), st)
  | ResultData _ _ => True
  end.
Proof.
  unfold processContainer.
  destruct (trackingAdapter env cn); reflexivity.
Qed.

(** C9: for a container judged weather-related whose tracking lacks the
    destination port or the actual arrival, the record's
    weatherFetchStatus is NO_DATA_AVAILABLE, the weather provider is not
    called and no error entry is appended after the classification. *)
Theorem processContainer_weather_precondition (shipment : Shipment) (cn : string)
    (st : St CS) (t : Tracking) (m : string)
    (Htracking : trackingAdapter env cn = ResultData t m)
    (Hmissing : destinationPort t = None \/ actualArrival t = None)
    (Hweather : fst (fst (hasWeatherRelatedDelay env t cn [] st)) = true) :
  match processContainer env shipment cn st with
  | (Returned (record, errs), st') =>
      weatherFetchStatus record = Some NO_DATA_AVAILABLE /\
      errs = snd (fst (hasWeatherRelatedDelay env t cn [] st)) /\
      st' = snd (hasWeatherRelatedDelay env t cn [] st) /\
      weatherCalls st' = weatherCalls st
  | (Threw _, st') => st' = st
  end.
Proof.
  unfold processContainer. rewrite Htracking. cbv beta iota zeta.
  destruct (buildBaseRecord env shipment cn (Some t)) as [record|e]; [|reflexivity].
  cbv beta iota zeta.
  pose proof (weather_loop_weatherCalls env (delayReasons t) cn [] st) as Wc.
  unfold hasWeatherRelatedDelay in *.
  destruct (weather_loop env (delayReasons t) cn [] st) as [[b e1] s1].
  cbn in Hweather. subst b. cbv beta iota zeta.
  assert (Hf : fetchWeatherSafely env t cn e1 s1 =
               (WeatherNoData (Some "Missing port location or arrival date"), e1, s1)).
  { unfold fetchWeatherSafely.
    destruct Hmissing as [-> | ->]; [reflexivity|].
    destruct (destinationPort t); reflexivity. }
  rewrite Hf. cbn. auto.
Qed.
End ContainerProofs.

Lemma processContainer_weather_precondition_witness :
  trackingAdapter noPortEnv "CONT1" = ResultData (fogTracking "CONT1" None) "Tracking found" /\
  (destinationPort (fogTracking "CONT1" None) = None \/
   actualArrival (fogTracking "CONT1" None) = None) /\
  fst (fst (hasWeatherRelatedDelay noPortEnv (fogTracking "CONT1" None) "CONT1" [] st0)) = true /\
  match processContainer noPortEnv (demoShipment "SGL001" ["CONT1"]) "CONT1" st0 with
  | (Returned (record, errs), st') =>
      weatherFetchStatus record = Some NO_DATA_AVAILABLE /\
      errs = snd (fst (hasWeatherRelatedDelay noPortEnv (fogTracking "CONT1" None) "CONT1" [] st0)) /\
      st' = snd (hasWeatherRelatedDelay noPortEnv (fogTracking "CONT1" None) "CONT1" [] st0) /\
      weatherCalls st' = weatherCalls st0
  | (Threw _, st') => st' = st0
  end.
Proof.
  split; [reflexivity|]. split; [left; reflexivity|]. split; [vm_compute; reflexivity|].
  apply (processContainer_weather_precondition noPortEnv (demoShipment "SGL001" ["CONT1"])
           "CONT1" st0 (fogTracking "CONT1" None) "Tracking found").
  - reflexivity.
  - left; reflexivity.
  - vm_compute; reflexivity.
Defined.

(* ===================================================================== *)
(* The keyword analyzer behind the confidence gate                        *)
(* ===================================================================== *)

Section KeywordProofs.
Variable env : Env unit.
Hypothesis Hkeyword : forall c r, delayAnalyzer env c r = keywordAnalyzer c r.

Lemma keyword_fields (r : string) :
  isWeatherRelated (keyword_analyzeDelay r) = has_weather_keyword r /\
  confidence (keyword_analyzeDelay r) = if has_weather_keyword r then 7 # 10 else 9 # 10.
Proof. split; reflexivity. Qed.

Lemma keyword_gate (r cn : string) (errors : list ShipmentAnalysisError) (st : St unit) :
  analyzeDelayWithConfidenceCheck env r cn errors st =
  if has_weather_keyword r
  then (None,
        errors ++ [mkAnalysisError cn "DELAY_ANALYSIS_LOW_CONFIDENCE"
                     (lowConfidenceMessage (numberToString env) (7 # 10) r)],
        mkSt (classifier st) (classified st ++ [r; r]) (weatherCalls st))
  else (Some (keyword_analyzeDelay r), errors,
        mkSt (classifier st) (classified st ++ [r]) (weatherCalls st)).
Proof.
  unfold analyzeDelayWithConfidenceCheck, callAnalyzer.
  rewrite Hkeyword. unfold keywordAnalyzer. cbv beta iota zeta.
  cbn [classifier classified weatherCalls]. rewrite Hkeyword. unfold keywordAnalyzer.
  cbv beta iota zeta.
  destruct (keyword_fields r) as [_ Hc]. rewrite Hc.
  destruct (has_weather_keyword r).
  - replace (Qle_bool CONFIDENCE_THRESHOLD (7 # 10)) with false by reflexivity.
    cbv beta iota. rewrite <- app_assoc. reflexivity.
  - replace (Qle_bool CONFIDENCE_THRESHOLD (9 # 10)) with true by reflexivity.
    cbv beta iota. reflexivity.
Qed.

Lemma keyword_weather_loop (reasons : list string) : forall cn errors st,
  weather_loop env reasons cn errors st =
  (false,
   errors ++ map (fun r => mkAnalysisError cn "DELAY_ANALYSIS_LOW_CONFIDENCE"
                             (lowConfidenceMessage (numberToString env) (7 # 10) r))
                 (List.filter has_weather_keyword reasons),
   mkSt (classifier st)
        (classified st ++ concat (map (fun r => if has_weather_keyword r then [r; r] else [r])
                                      reasons))
        (weatherCalls st)).
Proof.
  induction reasons as [|r rest IH]; intros cn errors st.
  - cbn [weather_loop List.filter map concat]. rewrite !app_nil_r. destruct st; reflexivity.
  - cbn [weather_loop]. rewrite keyword_gate.
    destruct (keyword_fields r) as [Hw _].
    destruct (has_weather_keyword r) eqn:K; cbv beta iota zeta.
    + rewrite IH. cbn [List.filter map concat classifier classified weatherCalls].
      rewrite K. cbn [app]. rewrite <- !app_assoc. reflexivity.
    + rewrite Hw. rewrite IH. cbn [List.filter map concat classifier classified weatherCalls].
      rewrite K. cbn [app]. rewrite <- !app_assoc. reflexivity.
Qed.

(** C10: the keyword analyzer answers confidence 0.7 on a keyword match
    (weather-related) and 0.9 otherwise; 0.7 is below the 0.8 threshold,
    so with this classifier hasWeatherRelatedDelay is always false, no
    weather fetch occurs, and each reason containing a weather keyword
    costs exactly two classifier calls and one
    DELAY_ANALYSIS_LOW_CONFIDENCE error. *)
Theorem keyword_classifier_never_weather :
  (forall r, isWeatherRelated (keyword_analyzeDelay r) = has_weather_keyword r /\
             confidence (keyword_analyzeDelay r) =
             if has_weather_keyword r then 7 # 10 else 9 # 10) /\
  (7 # 10 < CONFIDENCE_THRESHOLD)%Q /\ (CONFIDENCE_THRESHOLD <= 9 # 10)%Q /\
  (forall tracking cn errors st,
     hasWeatherRelatedDelay env tracking cn errors st =
     (false,
      errors ++ map (fun r => mkAnalysisError cn "DELAY_ANALYSIS_LOW_CONFIDENCE"
                                (lowConfidenceMessage (numberToString env) (7 # 10) r))
                    (List.filter has_weather_keyword (delayReasons tracking)),
      mkSt (classifier st)
           (classified st ++ concat (map (fun r => if has_weather_keyword r then [r; r] else [r])
                                         (delayReasons tracking)))
           (weatherCalls st))) /\
  (forall shipment cn st,
     match processContainer env shipment cn st with
     | (Returned (record, _), st') =>
         weatherFetchStatus record = None /\ weatherCalls st' = weatherCalls st
     | (Threw _, st') => st' = st
     end).
Proof.
  split; [intros r; split; reflexivity|].
  split; [reflexivity|]. split; [discriminate|].
  split; [intros; apply keyword_weather_loop|].
  intros shipment cn st. unfold processContainer.
  destruct (trackingAdapter env cn) as [t m|m|m]; cbv beta iota zeta;
    destruct (buildBaseRecord env shipment cn _) as [record|e] eqn:B; try reflexivity;
    cbv beta iota zeta.
  - unfold hasWeatherRelatedDelay. rewrite keyword_weather_loop. cbv beta iota zeta.
    split; [apply (buildBaseRecord_status env _ _ _ _ B)|reflexivity].
  - split; [apply (buildBaseRecord_status env _ _ _ _ B)|reflexivity].
  - split; [apply (buildBaseRecord_status env _ _ _ _ B)|reflexivity].
Qed.
End KeywordProofs.

Lemma keyword_classifier_never_weather_witness :
  (forall c r, delayAnalyzer keywordEnv c r = keywordAnalyzer c r) /\
  fst (fst (hasWeatherRelatedDelay keywordEnv (fogTracking "CONT1" (Some hamburg)) "CONT1" [] st0))
  = false.
Proof.
  assert (Hk : forall c r, delayAnalyzer keywordEnv c r = keywordAnalyzer c r)
    by (intros; reflexivity).
  split; [exact Hk|].
  destruct (keyword_classifier_never_weather keywordEnv Hk) as (_ & _ & _ & Hloop & _).
  rewrite Hloop. reflexivity.
Defined.

(* ===================================================================== *)
(* Record accounting: proofs                                              *)
(* ===================================================================== *)

Lemma chunk_from_concat {A} (l : list A) (size : nat) (Hsize : 0 < size) :
  forall fuel i, length l <= i + fuel * size ->
  concat (chunk_from l size fuel i) = skipn i l.
Proof.
  induction fuel as [|fuel IH]; intros i Hlen; cbn [chunk_from].
  - rewrite skipn_all2 by lia. reflexivity.
  - change (S fuel * size) with (size + fuel * size) in Hlen.
    destruct (Nat.ltb_spec i (length l)) as [Hi|Hi].
    + cbn [concat]. rewrite IH by lia. unfold slice.
      replace (i + size - i) with size by lia.
      replace (i + size) with (size + i) by lia.
      rewrite <- skipn_skipn. apply firstn_skipn.
    + rewrite skipn_all2 by lia. reflexivity.
Qed.

Lemma chunkArray_concat {A} (l : list A) (size : nat) :
  0 < size -> concat (chunkArray l size) = l.
Proof.
  intros Hsize. unfold chunkArray.
  rewrite chunk_from_concat by (try exact Hsize; nia). reflexivity.
Qed.

Lemma list_sum_map_concat {A} (f : A -> nat) (ll : list (list A)) :
  list_sum (map f (concat ll)) = list_sum (map (fun l => list_sum (map f l)) ll).
Proof.
  induction ll as [|l ll IH]; [reflexivity|].
  cbn [concat map]. rewrite map_app, list_sum_app, IH. reflexivity.
Qed.

Section Accounting.
Context {CS : Type}.
Variable env : Env CS.

(* processContainer rejects exactly on the containers of
   [container_raises]. *)
Lemma processContainer_is_threw (shipment : Shipment) (cn : string) (st : St CS) :
  is_threw (fst (processContainer env shipment cn st)) = container_raises env cn.
Proof.
  unfold processContainer, container_raises.
  destruct (trackingAdapter env cn) as [t m|m|m]; cbv beta iota zeta;
    [|reflexivity|reflexivity].
  unfold buildBaseRecord, optISOString. cbn [option_map].
  destruct (estimatedArrival t); cbn [toISOString is_invalid orb]; [|reflexivity].
  destruct (actualArrival t) as [[dday dms|]|]; cbn [toISOString is_invalid]; cbv beta iota zeta;
    try reflexivity;
    destruct (hasWeatherRelatedDelay env t cn [] st) as [[[|] e1] s1]; cbv beta iota zeta;
    try reflexivity;
    destruct (fetchWeatherSafely env t cn e1 s1) as [[w e2] s2]; reflexivity.
Qed.

(* A rejecting container: buildBaseRecord's toISOString throws before any
   classifier or weather call. *)
Lemma processContainer_raises (shipment : Shipment) (cn : string) (st : St CS) :
  container_raises env cn = true ->
  processContainer env shipment cn st =
  (Threw (mkError "RangeError" "Invalid time value" None), st).
Proof.
  unfold processContainer, container_raises.
  destruct (trackingAdapter env cn) as [t m|m|m]; cbv beta iota zeta; [|discriminate|discriminate].
  unfold buildBaseRecord, optISOString. cbn [option_map].
  destruct (estimatedArrival t) as [eday ems|]; cbn [toISOString is_invalid orb];
    [|intros _; reflexivity].
  destruct (actualArrival t) as [[dday dms|]|]; cbn [toISOString is_invalid]; cbv beta iota zeta;
    [discriminate|intros _; reflexivity|discriminate].
Qed.

Lemma process_containers_length (shipment : Shipment) (cs : list Container) :
  forall st, length (fst (fst (process_containers env shipment cs st))) =
             length (List.filter (fun c => negb (container_raises env (container_containerNumber c))) cs).
Proof.
  induction cs as [|c rest IH]; intros st; [reflexivity|].
  cbn [process_containers List.filter].
  pose proof (processContainer_is_threw shipment (container_containerNumber c) st) as T.
  destruct (processContainer env shipment (container_containerNumber c) st) as [o st1].
  cbv beta iota zeta. specialize (IH st1).
  destruct (process_containers env shipment rest st1) as [[rs es] st2].
  cbn [fst] in T, IH |- *. rewrite <- T.
  destruct o as [[r errs]|e]; cbn [is_threw negb length fst]; [f_equal|]; exact IH.
Qed.

Lemma processShipment_length (shipmentId : string) (st : St CS) :
  length (fst (fst (processShipment env shipmentId st))) = records_for env shipmentId.
Proof.
  unfold processShipment, records_for.
  destruct (shipmentAdapter env shipmentId) as [s m|m|m];
    [apply process_containers_length|reflexivity|reflexivity].
Qed.

Lemma process_chunk_length (chunk : list string) :
  forall st, length (fst (fst (process_chunk env chunk st))) =
             list_sum (map (records_for env) chunk).
Proof.
  induction chunk as [|id rest IH]; intros st; [reflexivity|].
  cbn [process_chunk map].
  pose proof (processShipment_length id st) as P.
  destruct (processShipment env id st) as [[rs es] st1].
  cbv beta iota zeta. specialize (IH st1).
  destruct (process_chunk env rest st1) as [[rs' es'] st2].
  cbn [fst] in P, IH |- *. rewrite length_app, P, IH. reflexivity.
Qed.

Lemma process_chunks_length (chunks : list (list string)) :
  forall st, length (fst (fst (process_chunks env chunks st))) =
             list_sum (map (fun chunk => list_sum (map (records_for env) chunk)) chunks).
Proof.
  induction chunks as [|chunk rest IH]; intros st; [reflexivity|].
  cbn [process_chunks map].
  pose proof (process_chunk_length chunk st) as P.
  destruct (process_chunk env chunk st) as [[rs es] st1].
  cbv beta iota zeta. specialize (IH st1).
  destruct (process_chunks env rest st1) as [[rs' es'] st2].
  cbn [fst] in P, IH |- *. rewrite length_app, P, IH. reflexivity.
Qed.

(** C1 (amended): with a positive batch size, analyzeShipments returns
    one placeholder record for each input ID whose shipment lookup is a
    failure or a not-found, and for a fetched shipment one record per
    container except the containers whose processing rejects (tracking
    data carrying an Invalid Date, on which toISOString throws); such a
    container leaves no record, only an "unknown" TRACKING_FETCH_ERROR:
    in the loop of processShipment over a fetched shipment's containers,
    it adds no record and exactly the one error entry keyed "unknown"
    with message "Container processing failed: RangeError: Invalid time
    value", and makes no classifier or weather call. *)
Theorem analyzeShipments_record_count (shipmentIds : list string) (st : St CS)
    (Hbatch : 0 < batchSize env) :
  length (fst (fst (analyzeShipments env shipmentIds st))) =
  list_sum (map (records_for env) shipmentIds) /\
  forall (shipment : Shipment) (c : Container) (rest : list Container) (st' : St CS),
    container_raises env (container_containerNumber c) = true ->
    process_containers env shipment (c :: rest) st' =
    let '(rs, es, st2) := process_containers env shipment rest st' in
    (rs, mkAnalysisError "unknown" "TRACKING_FETCH_ERROR"
           "Container processing failed: RangeError: Invalid time value" :: es, st2).
Proof.
  split.
  - unfold analyzeShipments. rewrite process_chunks_length, <- list_sum_map_concat.
    rewrite chunkArray_concat by exact Hbatch. reflexivity.
  - intros shipment c rest st' Hr. cbn [process_containers].
    rewrite (processContainer_raises shipment _ st' Hr). cbv beta iota zeta.
    destruct (process_containers env shipment rest st') as [[rs es] st2]. reflexivity.
Qed.
End Accounting.

Lemma analyzeShipments_record_count_witness :
  0 < batchSize badEtaEnv /\
  length (fst (fst (analyzeShipments badEtaEnv ["S1"; "S2"] st0))) =
  list_sum (map (records_for badEtaEnv) ["S1"; "S2"]) /\
  container_raises badEtaEnv "CONT1" = true /\
  process_containers badEtaEnv (demoShipment "S1" ["CONT1"])
    [{| container_containerNumber := "CONT1" |}] st0 =
  ([], [mkAnalysisError "unknown" "TRACKING_FETCH_ERROR"
          "Container processing failed: RangeError: Invalid time value"], st0).
Proof.
  assert (Hb : 0 < batchSize badEtaEnv) by (cbn; lia).
  destruct (analyzeShipments_record_count badEtaEnv ["S1"; "S2"] st0 Hb) as [Hcount Hraise].
  assert (Hr : container_raises badEtaEnv "CONT1" = true) by reflexivity.
  split; [exact Hb|]. split; [exact Hcount|]. split; [exact Hr|].
  rewrite (Hraise (demoShipment "S1" ["CONT1"]) {| container_containerNumber := "CONT1" |} [] st0 Hr).
  reflexivity.
Defined.

(** C1 (counterexample): a fetched shipment with one container whose
    tracking record has an Invalid Date ETA. The spec's accounting expects
    one record; analyzeShipments returns none and only an "unknown"
    TRACKING_FETCH_ERROR. *)
Lemma analyzeShipments_invalid_eta_counterexample :
  length (fst (fst (analyzeShipments badEtaEnv ["S1"] st0))) = 0 /\
  list_sum (map (spec_records_for badEtaEnv) ["S1"]) = 1 /\
  snd (fst (analyzeShipments badEtaEnv ["S1"] st0)) =
    [mkAnalysisError "unknown" "TRACKING_FETCH_ERROR"
       ("Container processing failed: " +s+ error_toString (mkError "RangeError" "Invalid time value" None))].
Proof. vm_compute. repeat split. Qed.

(* ===================================================================== *)
(* Error enrichment: proofs                                               *)
(* ===================================================================== *)

Lemma string_append_assoc (a b c : string) : (a +s+ b) +s+ c = a +s+ (b +s+ c).
Proof. induction a as [|x a IH]; [reflexivity|]. exact (f_equal (String x) IH). Qed.

Lemma string_append_nonempty_l (a b : string) : a <> "" -> a +s+ b <> "".
Proof. intros H. destruct a; cbn; [contradiction|discriminate]. Qed.

Lemma string_append_nonempty_r (a b : string) : b <> "" -> a +s+ b <> "".
Proof. intros H. destruct a; cbn; [exact H|discriminate]. Qed.

Lemma errorEntry_nonempty (e : ShipmentAnalysisError) : errorEntry e <> "".
Proof. unfold errorEntry. apply string_append_nonempty_r. cbn. discriminate. Qed.

Lemma join_entries_nonempty (l : list ShipmentAnalysisError) (s : string) :
  join_entries (map errorEntry l) = Some s -> s <> "".
Proof.
  destruct l as [|e [|e' l]]; cbn [map join_entries]; intros H; [discriminate| |];
    injection H as <-; cbn [String.concat].
  - apply errorEntry_nonempty.
  - apply string_append_nonempty_l, errorEntry_nonempty.
Qed.

Lemma entries_for_cons (k : string) (e : ShipmentAnalysisError) (rest : list ShipmentAnalysisError) :
  entries_for k (e :: rest) =
  if String.eqb (error_containerNumber e) k then errorEntry e :: entries_for k rest
  else entries_for k rest.
Proof. unfold entries_for. cbn [List.filter]. destruct (String.eqb _ _); reflexivity. Qed.

Lemma addError_nonempty (m : gmap string string) (e : ShipmentAnalysisError) :
  (forall k v, m !! k = Some v -> v <> "") ->
  forall k v, addError m e !! k = Some v -> v <> "".
Proof.
  intros Hm k v. unfold addError. cbv zeta. rewrite lookup_insert_Some.
  intros [[_ <-]|[_ H]]; [|exact (Hm _ _ H)].
  destruct (truthy (m !! error_containerNumber e)).
  - apply string_append_nonempty_r. cbn. discriminate.
  - apply errorEntry_nonempty.
Qed.

(* The loop of enrichRecordsWithErrors: the entry of a key is its
   previous entry followed by the entries of the later errors with that
   key, "; "-joined. *)
Lemma fold_addError_lookup (errors : list ShipmentAnalysisError) :
  forall (m : gmap string string) k,
  (forall k v, m !! k = Some v -> v <> "") ->
  fold_left addError errors m !! k =
  join_entries (match m !! k with Some v => [v] | None => [] end ++ entries_for k errors).
Proof.
  induction errors as [|e rest IH]; intros m k Hm; cbn [fold_left].
  - unfold entries_for. cbn [List.filter map]. rewrite app_nil_r.
    destruct (m !! k); reflexivity.
  - rewrite IH by (apply addError_nonempty; exact Hm).
    rewrite entries_for_cons.
    destruct (String.eqb_spec (error_containerNumber e) k) as [<-|Hne].
    + unfold addError. cbv zeta. rewrite lookup_insert_eq.
      destruct (m !! error_containerNumber e) as [v|] eqn:Hv.
      * assert (Ht : truthy (Some v) = true).
        { unfold truthy. rewrite (proj2 (String.eqb_neq v "") (Hm _ _ Hv)). reflexivity. }
        rewrite Ht. cbn [default app]. unfold join_entries. f_equal.
        destruct (entries_for (error_containerNumber e) rest) as [|c cs];
          cbn [String.concat]; [reflexivity|].
        rewrite !string_append_assoc. reflexivity.
      * reflexivity.
    + unfold addError. cbv zeta. rewrite lookup_insert_ne by exact Hne. reflexivity.
Qed.

Lemma buildErrorMap_lookup (errors : list ShipmentAnalysisError) (k : string) :
  buildErrorMap errors !! k = join_entries (entries_for k errors).
Proof.
  unfold buildErrorMap. rewrite fold_addError_lookup.
  - rewrite lookup_empty. reflexivity.
  - intros k' v. rewrite lookup_empty. discriminate.
Qed.

Lemma js_or_join (k : string) (errors : list ShipmentAnalysisError) (b : option string) :
  js_or (join_entries (entries_for k errors)) b =
  match join_entries (entries_for k errors) with Some s => Some s | None => b end.
Proof.
  destruct (join_entries (entries_for k errors)) as [s|] eqn:E; [|reflexivity].
  unfold js_or, truthy.
  rewrite (proj2 (String.eqb_neq s "") (join_entries_nonempty _ _ E)). reflexivity.
Qed.

(** C4 (amended): the error field enrichRecordsWithErrors gives a record
    is the "; "-joined entries ("errorType: message", in list order) of
    the errors keyed by the record's shipment identifier when there is at
    least one, and otherwise those keyed by its container identifier
    (absent when there are none). Errors keyed by the container
    identifier are dropped when the shipment identifier has errors. *)
Theorem enrichRecordsWithErrors_error (records : list ShipmentAnalysisRecord)
    (errors : list ShipmentAnalysisError) (timestamp : string) :
  map error (enrichRecordsWithErrors records errors timestamp) =
  map (code_record_error errors) records.
Proof.
  unfold enrichRecordsWithErrors. rewrite map_map. apply map_ext. intros r.
  unfold enrichRecord, code_record_error. cbn [error].
  rewrite !buildErrorMap_lookup, !js_or_join.
  destruct (join_entries (entries_for (sglShipmentNo r) errors)); [reflexivity|].
  destruct (join_entries (entries_for (containerNumber r) errors)); reflexivity.
Qed.

(** C4 (counterexample): shipment S1 holds container C1 and shipment S2
    holds a container numbered S1, and every tracking lookup fails. The
    record (S1, C1) gets only the error keyed S1 (the failure of
    container S1), not the "; "-joined errors keyed S1 or C1 that the spec
    describes. *)
Lemma enrichRecordsWithErrors_collision_counterexample :
  let res := analyzeShipments collisionEnv ["S1"; "S2"] st0 in
  let enriched := enrichRecordsWithErrors (fst (fst res)) (snd (fst res)) "2025-08-01T00:00:00.000Z" in
  map error enriched <> map (spec_record_error (snd (fst res))) enriched.
Proof. vm_compute. discriminate. Qed.

(* ===================================================================== *)
(* Weather failure accounting: proofs                                     *)
(* ===================================================================== *)

(** C5: fetchWeatherSafely appends a WEATHER_FETCH_ERROR only when the
    provider throws, and then always reports FATAL_ERROR; a RETRY_EXHAUSTED
    status therefore never comes with an appended error. The Open-Meteo
    provider catches its own failures and returns them: with every HTTP
    round trip timing out the record gets RETRY_EXHAUSTED and no error is
    appended, and with a non-retryable HTTP 400 it gets FATAL_ERROR and
    again no error is appended. *)
Theorem fetchWeatherSafely_failure_accounting :
  (forall CS (env : Env CS) tracking cn errors st w errors' st',
     fetchWeatherSafely env tracking cn errors st = (w, errors', st') ->
     weather_status w = RETRY_EXHAUSTED -> errors' = errors) /\
  match processContainer (failingWeatherEnv networkTimeout) (demoShipment "S1" ["CONT1"]) "CONT1" st0 with
  | (Returned (record, errors), st') =>
      weatherFetchStatus record = Some RETRY_EXHAUSTED /\ errors = [] /\ weatherCalls st' = 1%nat
  | (Threw _, _) => False
  end /\
  match processContainer (failingWeatherEnv badRequest) (demoShipment "S1" ["CONT1"]) "CONT1" st0 with
  | (Returned (record, errors), st') =>
      weatherFetchStatus record = Some FATAL_ERROR /\ errors = [] /\ weatherCalls st' = 1%nat
  | (Threw _, _) => False
  end.
Proof.
  split; [|split; vm_compute; repeat split].
  intros CS env tracking cn errors st w errors' st' H Hs.
  unfold fetchWeatherSafely in H. cbv zeta in H.
  destruct (destinationPort tracking) as [port|];
    [destruct (actualArrival tracking) as [arrival|]|];
    [destruct (weatherProvider env (latitude port) (longitude port) arrival) as [w0|e]| |];
    injection H as <- <- _; try reflexivity.
  cbn in Hs. discriminate.
Qed.

(* ===================================================================== *)
(* Backoff delays: proofs                                                 *)
(* ===================================================================== *)

Section SleepProofs.
Context {T : Type}.
Variable operation : nat -> Outcome T.
Variable isRetryable : Error -> bool.
Variable options : RetryOptions.

Lemma retry_loop_sleeps_fst f : forall a l,
  fst (retry_loop_sleeps operation isRetryable options a f l) =
  retry_loop operation isRetryable options a f l.
Proof.
  induction f as [|f IH]; intros a l; [reflexivity|].
  cbn [retry_loop_sleeps retry_loop].
  destruct (operation a) as [v|e]; [reflexivity|].
  destruct (isRetryable e); cbn [negb]; [|reflexivity].
  rewrite <- IH.
  destruct (retry_loop_sleeps operation isRetryable options (S a) f (Some e)) as [[r n] sl].
  reflexivity.
Qed.

Lemma retry_loop_sleeps_seq f : forall a l,
  a + f = S (maxRetries options) ->
  let '(_, n, sleeps) := retry_loop_sleeps operation isRetryable options a f l in
  sleeps = seq a (n - S a) /\ (f = 0 -> n = a) /\ (0 < f -> S a <= n).
Proof.
  induction f as [|f IH]; intros a l Hf.
  - cbn. replace (a - S a) with 0 by lia. repeat split; intros; lia.
  - cbn [retry_loop_sleeps].
    destruct (operation a) as [v|e].
    + cbn. rewrite Nat.sub_diag. repeat split; intros; lia.
    + destruct (isRetryable e); cbn [negb]; [|cbn; rewrite Nat.sub_diag; repeat split; intros; lia].
      specialize (IH (S a) (Some e) ltac:(lia)).
      destruct (retry_loop_sleeps operation isRetryable options (S a) f (Some e)) as [[r n] sl].
      destruct IH as (Hsl & H0 & Hpos). cbv beta iota zeta.
      destruct f as [|f].
      * rewrite (H0 eq_refl) in *. subst sl.
        replace (a <? maxRetries options) with false by (symmetry; apply Nat.ltb_ge; lia).
        replace (S a - S (S a)) with 0 by lia. rewrite Nat.sub_diag. repeat split; intros; lia.
      * replace (a <? maxRetries options) with true by (symmetry; apply Nat.ltb_lt; lia).
        specialize (Hpos ltac:(lia)). subst sl.
        replace (n - S a) with (S (n - S (S a))) by lia.
        cbn. repeat split; intros; lia.
Qed.

(** retryWithBackoff sleeps after every failed attempt except the last one
    it makes: with n the number of calls of the operation, the attempts
    followed by a backoff sleep are exactly 0, 1, ..., n - 2. So it never
    sleeps after a success, after a non-retryable failure or after the
    final attempt. The result and the call count are those of
    retryWithBackoff. *)
Theorem retryWithBackoff_sleeps_between_attempts :
  let '(r, n, sleeps) := retryWithBackoff_sleeps operation isRetryable options in
  (r, n) = retryWithBackoff operation isRetryable options /\ sleeps = seq 0 (n - 1).
Proof.
  unfold retryWithBackoff_sleeps, retryWithBackoff.
  pose proof (retry_loop_sleeps_fst (S (maxRetries options)) 0 None) as F.
  pose proof (retry_loop_sleeps_seq (S (maxRetries options)) 0 None eq_refl) as Sq.
  destruct (retry_loop_sleeps operation isRetryable options 0 (S (maxRetries options)) None)
    as [[r n] sl].
  cbn [fst] in F. destruct Sq as (Hsl & _ & _). split; [exact F|exact Hsl].
Qed.
End SleepProofs.

(* ===================================================================== *)
(* Open-Meteo provider: proofs                                            *)
(* ===================================================================== *)

Lemma retry_loop_S {T} (operation : nat -> Outcome T) isRetryable options a f l :
  retry_loop operation isRetryable options a (S f) l =
  match operation a with
  | Returned v => (inl v, S a)
  | Threw e =>
      if negb (isRetryable e) then (inr (Rethrown e), S a)
      else retry_loop operation isRetryable options (S a) f (Some e)
  end.
Proof. reflexivity. Qed.

Section GetWeatherProofs.
Context {OpenMeteoResponse : Type}.
Variable config_retry : RetryOptions.
Variable now : Date.
Variable isoDate : Date -> string.
Variable fetchWeatherData : Q -> Q -> Date -> nat -> Outcome OpenMeteoResponse.
Variable parseWeatherResponse : OpenMeteoResponse -> Date -> Outcome WeatherResult.

Lemma retry_loop_constant_failure (op : nat -> Outcome OpenMeteoResponse) (e : Error)
    (Hop : forall n, op n = Threw e) f : forall a l,
  retry_loop op isRetryableError config_retry a (S f) l =
  if isRetryableError e
  then (inr (RetryExhaustedError
               ("Operation failed after " +s+ pretty (S (maxRetries config_retry)) +s+ " attempts")
               (S (maxRetries config_retry)) (Some e)), a + S f)
  else (inr (Rethrown e), S a).
Proof.
  induction f as [|f IH]; intros a l.
  - cbn [retry_loop]. rewrite Hop.
    destruct (isRetryableError e); cbn [negb]; [|reflexivity].
    rewrite Nat.add_1_r. reflexivity.
  - rewrite retry_loop_S, Hop.
    destruct (isRetryableError e) eqn:R; cbn [negb]; [|reflexivity].
    rewrite IH. rewrite ?R. replace (a + S (S f)) with (S a + S f) by lia. reflexivity.
Qed.

(** When every call of fetchWeatherData fails with the same error e, for
    a date that is not in the future, getWeather calls it
    maxRetries + 1 times and returns RETRY_EXHAUSTED with "Failed to fetch
    weather data after <maxRetries + 1> attempts: <e.message>" if e is
    retryable. Otherwise it calls it once and returns FATAL_ERROR with
    e.message. *)
Theorem getWeather_constant_failure (latitude longitude : Q) (date : Date) (e : Error)
    (Hpast : date_gt (setHours0 date) (setHours0 now) = false)
    (Hfail : forall n, fetchWeatherData latitude longitude date n = Threw e) :
  getWeather config_retry now isoDate fetchWeatherData parseWeatherResponse latitude longitude date =
  if isRetryableError e
  then (Returned (WeatherRetryExhausted
          ("Failed to fetch weather data after " +s+ pretty (S (maxRetries config_retry)) +s+
           " attempts: " +s+ message e)), S (maxRetries config_retry))
  else (Returned (WeatherFatal (message e)), 1%nat).
Proof.
  unfold getWeather. cbv zeta. rewrite Hpast. unfold retryWithBackoff.
  rewrite (retry_loop_constant_failure _ e Hfail).
  destruct (isRetryableError e); reflexivity.
Qed.
End GetWeatherProofs.

Lemma httpError_retryable (s : Z) (t : string) :
  (s = 429 \/ 500 <= s < 600)%Z -> isRetryableError (httpError s t) = true.
Proof.
  intros Hs. unfold isRetryableError. destruct (isNetworkError (httpError s t)); [reflexivity|].
  cbn [httpError statusCode].
  destruct Hs as [->|Hs]; [reflexivity|].
  apply orb_true_iff. right. apply andb_true_iff. split; [apply Z.leb_le|apply Z.ltb_lt]; lia.
Qed.

Lemma httpError_not_retryable (s : Z) (t : string) :
  ~ (s = 429 \/ 500 <= s < 600)%Z -> isNetworkError (httpError s t) = false ->
  isRetryableError (httpError s t) = false.
Proof.
  intros Hs Hn. unfold isRetryableError. rewrite Hn. cbn [httpError statusCode].
  destruct (Z.eqb_spec s 429); [exfalso; apply Hs; left; assumption|].
  destruct (Z.leb_spec 500 s); destruct (Z.ltb_spec s 600); cbn; try reflexivity.
  exfalso. apply Hs. right. lia.
Qed.

Lemma apiError_retryable (r : option string) :
  isRetryableError (apiError r) = isNetworkError (apiError r).
Proof. unfold isRetryableError. destruct (isNetworkError (apiError r)); reflexivity. Qed.

Section OpenMeteoProofs.
Variable config_retry : RetryOptions.
Variable now : Date.
Variable iso : Z -> Z -> string.
Variable numberToString : Q -> string.
Variable getUTCHours : Date -> option Z.

(** On an Invalid Date, the Open-Meteo provider sends no request:
    fetchWeatherData throws toISOString's RangeError before calling fetch,
    that error is not retryable, and getWeather returns FATAL_ERROR
    "Invalid time value" after a single attempt. *)
Theorem openMeteoGetWeather_invalid_date fetch (latitude longitude : Q) :
  openMeteoGetWeather config_retry now iso numberToString fetch getUTCHours
    latitude longitude InvalidDate =
  (Returned (WeatherFatal "Invalid time value"), 1%nat).
Proof. reflexivity. Qed.

(** If every HTTP response has a non-OK status s with status text t, for
    a valid date that is not in the future, two cases follow. When s is
    429 or in 500..599, the provider makes maxRetries + 1 requests and
    returns RETRY_EXHAUSTED with "Failed to fetch weather data after
    <maxRetries + 1> attempts: HTTP s: t". For any other status whose
    message contains none of the network keywords, it makes one request
    and returns FATAL_ERROR with "HTTP s: t". *)
Theorem openMeteoGetWeather_http_failure fetch (latitude longitude : Q) (date : Date)
    (response : FetchResponse)
    (Hvalid : is_invalid date = false)
    (Hpast : date_gt (setHours0 date) (setHours0 now) = false)
    (Hfetch : forall url params n, fetch url params n = Returned response)
    (Hnotok : ok response = false) :
  ((status response = 429 \/ 500 <= status response < 600)%Z ->
   openMeteoGetWeather config_retry now iso numberToString fetch getUTCHours latitude longitude date =
   (Returned (WeatherRetryExhausted
      ("Failed to fetch weather data after " +s+ pretty (S (maxRetries config_retry)) +s+
       " attempts: HTTP " +s+ pretty (status response) +s+ ": " +s+ statusText response)),
    S (maxRetries config_retry))) /\
  (~ (status response = 429 \/ 500 <= status response < 600)%Z ->
   isNetworkError (httpError (status response) (statusText response)) = false ->
   openMeteoGetWeather config_retry now iso numberToString fetch getUTCHours latitude longitude date =
   (Returned (WeatherFatal ("HTTP " +s+ pretty (status response) +s+ ": " +s+ statusText response)),
    1%nat)).
Proof.
  assert (Hfail : forall n, fetchWeatherData iso numberToString fetch latitude longitude date n =
                            Threw (httpError (status response) (statusText response))).
  { intros n. unfold fetchWeatherData.
    destruct date as [day ms|]; [|discriminate].
    cbn [toISOString]. rewrite Hfetch, Hnotok. reflexivity. }
  unfold openMeteoGetWeather.
  rewrite (getWeather_constant_failure _ _ _ _ _ _ _ _ _ Hpast Hfail).
  split.
  - intros Hs. rewrite httpError_retryable by exact Hs. reflexivity.
  - intros Hs Hn. rewrite httpError_not_retryable by assumption. reflexivity.
Qed.

(** If every HTTP response is OK with a body whose error flag is true,
    for a valid date that is not in the future, the thrown message is
    "Open-Meteo API error: " followed by the body's reason, or by
    "Unknown error" when the reason is missing or empty. The error has
    no status code, so it is retried only when this message contains a
    network keyword (timeout, econnrefused, enotfound, network). Then
    the provider returns RETRY_EXHAUSTED after maxRetries + 1 requests;
    otherwise it returns FATAL_ERROR after one request. *)
Theorem openMeteoGetWeather_api_error fetch (latitude longitude : Q) (date : Date)
    (response : FetchResponse) (data : OpenMeteoResponse)
    (Hvalid : is_invalid date = false)
    (Hpast : date_gt (setHours0 date) (setHours0 now) = false)
    (Hfetch : forall url params n, fetch url params n = Returned response)
    (Hok : ok response = true) (Hjson : json response = Returned data)
    (Herror : api_error data = Some true) :
  let msg := "Open-Meteo API error: " +s+ default "" (js_or (reason data) (Some "Unknown error")) in
  openMeteoGetWeather config_retry now iso numberToString fetch getUTCHours latitude longitude date =
  if isNetworkError (apiError (reason data))
  then (Returned (WeatherRetryExhausted
          ("Failed to fetch weather data after " +s+ pretty (S (maxRetries config_retry)) +s+
           " attempts: " +s+ msg)), S (maxRetries config_retry))
  else (Returned (WeatherFatal msg), 1%nat).
Proof.
  intros msg.
  assert (Hfail : forall n, fetchWeatherData iso numberToString fetch latitude longitude date n =
                            Threw (apiError (reason data))).
  { intros n. unfold fetchWeatherData.
    destruct date as [day ms|]; [|discriminate].
    cbn [toISOString]. rewrite Hfetch, Hok. cbn [negb]. rewrite Hjson, Herror. reflexivity. }
  unfold openMeteoGetWeather.
  rewrite (getWeather_constant_failure _ _ _ _ _ _ _ _ _ Hpast Hfail), apiError_retryable.
  reflexivity.
Qed.

(** A past, valid date whose first request (to the archive URL, with
    latitude, longitude, start_date and end_date both set to the date's
    ISO day, the three hourly fields and timezone UTC) gets an OK response
    with a body without the error flag: the provider makes exactly one
    request and returns parseWeatherResponse of that body. *)
Theorem openMeteoGetWeather_first_success fetch (latitude longitude : Q) (date : Date)
    (response : FetchResponse) (data : OpenMeteoResponse)
    (Hvalid : is_invalid date = false)
    (Hpast : date_gt (setHours0 date) (setHours0 now) = false)
    (Hfetch : fetch openMeteoBaseUrl
                (requestParams numberToString latitude longitude (isoDay iso date)) 0 =
              Returned response)
    (Hok : ok response = true) (Hjson : json response = Returned data)
    (Herror : api_error data <> Some true) :
  openMeteoGetWeather config_retry now iso numberToString fetch getUTCHours latitude longitude date =
  (Returned (parseWeatherResponse getUTCHours data date), 1%nat).
Proof.
  unfold openMeteoGetWeather, getWeather. cbv zeta. rewrite Hpast.
  unfold retryWithBackoff. cbn [retry_loop].
  assert (Hf : fetchWeatherData iso numberToString fetch latitude longitude date 0 = Returned data).
  { unfold fetchWeatherData. destruct date as [day ms|]; [|discriminate].
    unfold isoDay in Hfetch. cbn [toISOString] in Hfetch |- *. cbv zeta.
    rewrite Hfetch, Hok. cbn [negb]. rewrite Hjson.
    destruct (api_error data) as [[|]|]; [contradiction|reflexivity|reflexivity]. }
  rewrite Hf. reflexivity.
Qed.
End OpenMeteoProofs.

(* ===================================================================== *)
(* Witnesses of the provider theorems                                    *)
(* ===================================================================== *)

Lemma getWeather_constant_failure_witness :
  date_gt (setHours0 (ValidDate 20000 0)) (setHours0 (ValidDate 20100 0)) = false /\
  getWeather (OpenMeteoResponse := unit) demoRetry (ValidDate 20100 0) (fun _ => "2024-10-04")
    (fun _ _ _ _ => Threw networkTimeout) (fun _ _ => Returned (WeatherNoData None))
    0 0 (ValidDate 20000 0) =
  (Returned (WeatherRetryExhausted
     ("Failed to fetch weather data after " +s+ pretty 3%nat +s+ " attempts: Network timeout")),
   3%nat).
Proof.
  split; [reflexivity|].
  exact (getWeather_constant_failure (OpenMeteoResponse := unit) demoRetry (ValidDate 20100 0)
           (fun _ => "2024-10-04") (fun _ _ _ _ => Threw networkTimeout)
           (fun _ _ => Returned (WeatherNoData None)) 0 0 (ValidDate 20000 0) networkTimeout
           eq_refl (fun _ => eq_refl)).
Defined.

Lemma openMeteoGetWeather_http_failure_witness :
  is_invalid (ValidDate 20000 0) = false /\
  date_gt (setHours0 (ValidDate 20000 0)) (setHours0 (ValidDate 20100 0)) = false /\
  ok serviceUnavailable = false /\
  openMeteoGetWeather demoRetry (ValidDate 20100 0) demoIso (fun _ => "0")
    (failingFetch serviceUnavailable) (fun _ => Some 14%Z) 0 0 (ValidDate 20000 0) =
  (Returned (WeatherRetryExhausted
     ("Failed to fetch weather data after " +s+ pretty 3%nat +s+
      " attempts: HTTP " +s+ pretty 503%Z +s+ ": Service Unavailable")), 3%nat).
Proof.
  split; [reflexivity|]. split; [reflexivity|]. split; [reflexivity|].
  apply (proj1 (openMeteoGetWeather_http_failure demoRetry (ValidDate 20100 0) demoIso
           (fun _ => "0") (fun _ => Some 14%Z) (failingFetch serviceUnavailable) 0 0
           (ValidDate 20000 0) serviceUnavailable eq_refl eq_refl
           (fun _ _ _ => eq_refl) eq_refl)).
  right. cbn. lia.
Defined.

Lemma openMeteoGetWeather_api_error_witness :
  is_invalid (ValidDate 20000 0) = false /\
  date_gt (setHours0 (ValidDate 20000 0)) (setHours0 (ValidDate 20100 0)) = false /\
  ok apiErrorResponse = true /\
  openMeteoGetWeather demoRetry (ValidDate 20100 0) demoIso (fun _ => "0")
    (failingFetch apiErrorResponse) (fun _ => Some 14%Z) 0 0 (ValidDate 20000 0) =
  (Returned (WeatherFatal "Open-Meteo API error: Unknown error"), 1%nat).
Proof.
  split; [reflexivity|]. split; [reflexivity|]. split; [reflexivity|].
  exact (openMeteoGetWeather_api_error demoRetry (ValidDate 20100 0) demoIso
           (fun _ => "0") (fun _ => Some 14%Z) (failingFetch apiErrorResponse) 0 0
           (ValidDate 20000 0) apiErrorResponse
           {| hourly := None; api_error := Some true; reason := None |} eq_refl eq_refl
           (fun _ _ _ => eq_refl) eq_refl eq_refl eq_refl).
Defined.

Lemma openMeteoGetWeather_first_success_witness :
  is_invalid (ValidDate 20000 0) = false /\
  date_gt (setHours0 (ValidDate 20000 0)) (setHours0 (ValidDate 20100 0)) = false /\
  ok archiveFetchResponse = true /\
  openMeteoGetWeather demoRetry (ValidDate 20100 0) demoIso (fun _ => "0")
    (failingFetch archiveFetchResponse) (fun _ => Some 14%Z) 0 0 (ValidDate 20000 0) =
  (Returned (parseWeatherResponse (fun _ => Some 14%Z) archiveResponse (ValidDate 20000 0)), 1%nat).
Proof.
  split; [reflexivity|]. split; [reflexivity|]. split; [reflexivity|].
  refine (openMeteoGetWeather_first_success demoRetry (ValidDate 20100 0) demoIso
           (fun _ => "0") (fun _ => Some 14%Z) (failingFetch archiveFetchResponse) 0 0
           (ValidDate 20000 0) archiveFetchResponse archiveResponse eq_refl eq_refl
           eq_refl eq_refl eq_refl _).
  discriminate.
Defined.

(* ===================================================================== *)
(* Open-Meteo response parsing: proofs                                    *)
(* ===================================================================== *)

Lemma findIndex_Some {A} (p : A -> bool) (l : list A) (i : nat) :
  findIndex p l = Some i ->
  exists x, nth_error l i = Some x /\ p x = true /\
            forall j y, (j < i)%nat -> nth_error l j = Some y -> p y = false.
Proof.
  revert i. induction l as [|x l IH]; intros i H; cbn [findIndex] in H; [discriminate|].
  destruct (p x) eqn:Px.
  - injection H as <-. exists x. split; [reflexivity|]. split; [exact Px|]. intros j y Hj. lia.
  - destruct (findIndex p l) as [i'|] eqn:F; cbn in H; [|discriminate].
    injection H as <-. destruct (IH i' eq_refl) as (y & Hy & Py & Hbefore).
    exists y. split; [exact Hy|]. split; [exact Py|].
    intros [|j] z Hj Hz; cbn in Hz.
    + injection Hz as <-. exact Px.
    + apply (Hbefore j z); [lia|exact Hz].
Qed.

(** parseWeatherResponse returns SUCCESS only from the first entry of
    hourly.time that contains "T<hh>:", hh being the target's UTC hour
    padded to two digits, and only when temperature_2m and
    wind_speed_10m are non-null at that index. The result then has a
    temperature and a wind speed, and its wind direction is the raw
    wind_direction_10m entry at that index (missing when null or past the
    end). The numeric conversion and rounding are not part of this
    statement. *)
Theorem parseWeatherResponse_success getUTCHours (response : OpenMeteoResponse)
    (targetDate : Date) (w : WeatherData)
    (H : parseWeatherResponse getUTCHours response targetDate = WeatherSuccess w) :
  let pattern := "T" +s+ padStart2 (hourString (getUTCHours targetDate)) +s+ ":" in
  exists hd times index t tempC windKmh,
    hourly response = Some hd /\ time hd = Some times /\
    nth_error times index = Some t /\ includes t pattern = true /\
    (forall j t', (j < index)%nat -> nth_error times j = Some t' -> includes t' pattern = false) /\
    at_index (temperature_2m hd) index = Some tempC /\
    at_index (wind_speed_10m hd) index = Some windKmh /\
    (exists x, temperature w = Some x) /\ (exists y, windSpeed w = Some y) /\
    windDirection w = at_index (wind_direction_10m hd) index.
Proof.
  intros pattern. unfold parseWeatherResponse in H.
  destruct (hourly response) as [hd|] eqn:Hh; [|discriminate].
  destruct (time hd) as [[|t0 ts]|] eqn:Ht; try discriminate.
  fold pattern in H.
  destruct (findIndex (fun t => includes t pattern) (t0 :: ts)) as [index|] eqn:F; [|discriminate].
  destruct (at_index (temperature_2m hd) index) as [tempC|] eqn:Tc; [|discriminate].
  destruct (at_index (wind_speed_10m hd) index) as [windKmh|] eqn:Wk; [|discriminate].
  injection H as <-.
  destruct (findIndex_Some _ _ _ F) as (t & Hnth & Hinc & Hbefore).
  exists hd, (t0 :: ts), index, t, tempC, windKmh.
  repeat split; try assumption; try reflexivity; eexists; reflexivity.
Qed.

Lemma parseWeatherResponse_success_witness :
  let w := {| temperature := Some (round1 (2134 # 100)); windSpeed := Some (round1 (18 / (36 # 10)));
              windDirection := Some 270%Q |} in
  parseWeatherResponse (fun _ => Some 14%Z) archiveResponse (ValidDate 20000 0) = WeatherSuccess w /\
  let pattern := "T" +s+ padStart2 (hourString (Some 14%Z)) +s+ ":" in
  exists hd times index t tempC windKmh,
    hourly archiveResponse = Some hd /\ time hd = Some times /\
    nth_error times index = Some t /\ includes t pattern = true /\
    (forall j t', (j < index)%nat -> nth_error times j = Some t' -> includes t' pattern = false) /\
    at_index (temperature_2m hd) index = Some tempC /\
    at_index (wind_speed_10m hd) index = Some windKmh /\
    (exists x, temperature w = Some x) /\ (exists y, windSpeed w = Some y) /\
    windDirection w = at_index (wind_direction_10m hd) index.
Proof.
  intros w.
  assert (H : parseWeatherResponse (fun _ => Some 14%Z) archiveResponse (ValidDate 20000 0) =
              WeatherSuccess w) by (vm_compute; reflexivity).
  split; [exact H|].
  exact (parseWeatherResponse_success (fun _ => Some 14%Z) archiveResponse (ValidDate 20000 0) w H).
Defined.

(* ===================================================================== *)
(* ShipmentAnalyzerService: invariants                                    *)
(* ===================================================================== *)

Lemma chunk_from_zero {A} (l : list A) : forall fuel i, concat (chunk_from l 0 fuel i) = [].
Proof.
  induction fuel as [|fuel IH]; intros i; cbn [chunk_from]; [reflexivity|].
  destruct (i <? length l)%nat; [|reflexivity].
  cbn [concat]. rewrite IH, Nat.add_0_r. unfold slice. rewrite Nat.sub_diag. reflexivity.
Qed.

Lemma chunkArray_concat_cases {A} (l : list A) (size : nat) :
  concat (chunkArray l size) = l \/ concat (chunkArray l size) = [].
Proof.
  destruct size as [|size].
  - right. apply chunk_from_zero.
  - left. apply chunkArray_concat. lia.
Qed.

Section AnalyzerComposition.
Context {CS : Type}.
Variable env : Env CS.

Lemma process_chunk_app (l1 l2 : list string) : forall st,
  process_chunk env (l1 ++ l2) st =
  let '(rs, es, st1) := process_chunk env l1 st in
  let '(rs', es', st2) := process_chunk env l2 st1 in
  (rs ++ rs', es ++ es', st2).
Proof.
  induction l1 as [|id l1 IH]; intros st.
  - cbn [app process_chunk]. destruct (process_chunk env l2 st) as [[rs es] st2]. reflexivity.
  - cbn [app process_chunk].
    destruct (processShipment env id st) as [[rs0 es0] st0]. rewrite IH.
    destruct (process_chunk env l1 st0) as [[rs1 es1] st1].
    destruct (process_chunk env l2 st1) as [[rs2 es2] st2].
    cbv beta iota zeta. rewrite !app_assoc. reflexivity.
Qed.

Lemma process_chunks_concat (chunks : list (list string)) : forall st,
  process_chunks env chunks st = process_chunk env (concat chunks) st.
Proof.
  induction chunks as [|chunk chunks IH]; intros st; [reflexivity|].
  cbn [process_chunks concat]. rewrite process_chunk_app.
  destruct (process_chunk env chunk st) as [[rs es] st1]. rewrite IH. reflexivity.
Qed.

Lemma analyzeShipments_cases (ids : list string) (st : St CS) :
  analyzeShipments env ids st = process_chunk env ids st \/
  analyzeShipments env ids st = ([], [], st).
Proof.
  unfold analyzeShipments. rewrite process_chunks_concat.
  destruct (chunkArray_concat_cases ids (batchSize env)) as [->| ->]; [left|right]; reflexivity.
Qed.
End AnalyzerComposition.

Section AnalyzerInvariants.
Context {CS : Type}.
Variable env : Env CS.

Lemma analyzeDelay_errors_Forall (P : ShipmentAnalysisError -> Prop) reason cn errors st :
  Forall P errors ->
  (forall msg, P (mkAnalysisError cn "DELAY_ANALYSIS_LOW_CONFIDENCE" msg)) ->
  Forall P (snd (fst (analyzeDelayWithConfidenceCheck env reason cn errors st))).
Proof.
  intros He Hp. unfold analyzeDelayWithConfidenceCheck.
  destruct (callAnalyzer env st reason) as [a1 st1].
  destruct (Qle_bool CONFIDENCE_THRESHOLD (confidence a1)); [exact He|].
  destruct (callAnalyzer env st1 reason) as [a2 st2].
  destruct (Qle_bool CONFIDENCE_THRESHOLD (confidence a2)); [exact He|].
  cbn [fst snd]. apply Forall_app. split; [exact He|]. constructor; [apply Hp|constructor].
Qed.

Lemma weather_loop_errors_Forall (P : ShipmentAnalysisError -> Prop) cn
    (Hp : forall msg, P (mkAnalysisError cn "DELAY_ANALYSIS_LOW_CONFIDENCE" msg)) reasons :
  forall errors st, Forall P errors ->
  Forall P (snd (fst (weather_loop env reasons cn errors st))).
Proof.
  induction reasons as [|reason rest IH]; intros errors st He; [exact He|].
  cbn [weather_loop].
  pose proof (analyzeDelay_errors_Forall P reason cn errors st He Hp) as H1.
  destruct (analyzeDelayWithConfidenceCheck env reason cn errors st) as [[[a|] e1] st1];
    cbn [fst snd] in H1.
  - destruct (isWeatherRelated a); [exact H1|apply IH; exact H1].
  - apply IH. exact H1.
Qed.

Lemma fetchWeatherSafely_errors_Forall (P : ShipmentAnalysisError -> Prop) t cn errors st :
  Forall P errors -> (forall msg, P (mkAnalysisError cn "WEATHER_FETCH_ERROR" msg)) ->
  Forall P (snd (fst (fetchWeatherSafely env t cn errors st))).
Proof.
  intros He Hp. unfold fetchWeatherSafely.
  destruct (destinationPort t), (actualArrival t); try exact He.
  destruct (weatherProvider env _ _ _); [exact He|].
  cbn [fst snd]. apply Forall_app. split; [exact He|]. constructor; [apply Hp|constructor].
Qed.

Lemma buildBaseRecord_ok shipment cn tracking r :
  buildBaseRecord env shipment cn tracking = Returned r ->
  record_ok r /\ record_temperature r = None /\ record_windSpeed r = None.
Proof.
  unfold buildBaseRecord.
  destruct (optISOString env _) as [eta|e]; [|discriminate].
  destruct (optISOString env _) as [arr|e]; [|discriminate].
  intros E. injection E as <-. split; [|split; reflexivity].
  split; [reflexivity|].
  cbn. intros [H|H]; contradiction.
Qed.

Lemma applyWeather_ok r w :
  record_ok r -> record_temperature r = None -> record_windSpeed r = None ->
  record_ok (applyWeather r w).
Proof.
  intros (He & Hw) Ht Hws. unfold applyWeather.
  destruct w as [d|o|m|m]; cbv beta iota zeta; split; try exact He;
    cbn [record_temperature record_windSpeed weatherFetchStatus weather_status]; intros H;
    try reflexivity; rewrite Ht, Hws in H; destruct H as [H|H]; contradiction.
Qed.

Lemma buildErrorRecord_ok id : record_ok (buildErrorRecord env id).
Proof. split; [reflexivity|]. cbn. intros [H|H]; contradiction. Qed.

Lemma processContainer_ok (P : ShipmentAnalysisError -> Prop) shipment cn st :
  (forall ty msg, In ty errorTypes -> P (mkAnalysisError cn ty msg)) ->
  match fst (processContainer env shipment cn st) with
  | Returned (r, errs) => record_ok r /\ Forall P errs
  | Threw _ => True
  end.
Proof.
  intros Hp.
  assert (Hlow : forall msg, P (mkAnalysisError cn "DELAY_ANALYSIS_LOW_CONFIDENCE" msg))
    by (intros msg; apply Hp; cbn; tauto).
  assert (Hwf : forall msg, P (mkAnalysisError cn "WEATHER_FETCH_ERROR" msg))
    by (intros msg; apply Hp; cbn; tauto).
  unfold processContainer. cbv zeta.
  set (te := match trackingAdapter env cn with
             | ResultFailure m => (None, [mkAnalysisError cn "TRACKING_FETCH_ERROR" m])
             | ResultData t _ => (Some t, [])
             | ResultNotFound _ => (None, [])
             end).
  assert (Hte : Forall P (snd te)).
  { subst te. destruct (trackingAdapter env cn); cbn [snd]; try constructor.
    - apply Hp. cbn; tauto.
    - constructor. }
  destruct te as [tracking errors].
  cbn [snd] in Hte.
  destruct (buildBaseRecord env shipment cn tracking) as [r|e] eqn:B; [|exact I].
  destruct (buildBaseRecord_ok _ _ _ _ B) as (Hr & Ht0 & Hw0).
  destruct tracking as [t|]; [|split; assumption].
  unfold hasWeatherRelatedDelay.
  pose proof (weather_loop_errors_Forall P cn Hlow (delayReasons t) errors st Hte) as H1.
  destruct (weather_loop env (delayReasons t) cn errors st) as [[[|] e1] st1]; cbn [fst snd] in H1.
  - pose proof (fetchWeatherSafely_errors_Forall P t cn e1 st1 H1 Hwf) as H2.
    destruct (fetchWeatherSafely env t cn e1 st1) as [[w e2] st2]. cbn [fst snd] in H2 |- *.
    split; [apply applyWeather_ok; assumption|exact H2].
  - split; assumption.
Qed.

Lemma process_containers_ok (P : ShipmentAnalysisError -> Prop) shipment cs :
  (forall msg, P (mkAnalysisError "unknown" "TRACKING_FETCH_ERROR" msg)) ->
  (forall c ty msg, In c cs -> In ty errorTypes ->
                    P (mkAnalysisError (container_containerNumber c) ty msg)) ->
  forall st, Forall record_ok (fst (fst (process_containers env shipment cs st))) /\
             Forall P (snd (fst (process_containers env shipment cs st))).
Proof.
  intros Hu. induction cs as [|c cs IH]; intros Hc st; [split; constructor|].
  cbn [process_containers].
  pose proof (processContainer_ok P shipment (container_containerNumber c) st
                (fun ty msg Hty => Hc c ty msg (or_introl eq_refl) Hty)) as H0.
  destruct (processContainer env shipment (container_containerNumber c) st) as [o st1].
  cbn [fst] in H0.
  destruct (IH (fun c' ty msg Hin => Hc c' ty msg (or_intror Hin)) st1) as [Hrs Hes].
  destruct (process_containers env shipment cs st1) as [[rs es] st2]. cbn [fst snd] in Hrs, Hes.
  destruct o as [[r errs]|e]; cbn [fst snd].
  - destruct H0 as [Hr Herrs]. split; [constructor; assumption|apply Forall_app; split; assumption].
  - split; [exact Hrs|constructor; [apply Hu|exact Hes]].
Qed.

Lemma process_chunk_ok (P : ShipmentAnalysisError -> Prop) chunk :
  (forall msg, P (mkAnalysisError "unknown" "TRACKING_FETCH_ERROR" msg)) ->
  (forall id ty msg, In id chunk -> In ty errorTypes -> P (mkAnalysisError id ty msg)) ->
  (forall id s m c ty msg, In id chunk -> shipmentAdapter env id = ResultData s m ->
     In c (containers s) -> In ty errorTypes ->
     P (mkAnalysisError (container_containerNumber c) ty msg)) ->
  forall st, Forall record_ok (fst (fst (process_chunk env chunk st))) /\
             Forall P (snd (fst (process_chunk env chunk st))).
Proof.
  intros Hu. induction chunk as [|id chunk IH]; intros Hid Hc st; [split; constructor|].
  cbn [process_chunk].
  assert (H0 : Forall record_ok (fst (fst (processShipment env id st))) /\
               Forall P (snd (fst (processShipment env id st)))).
  { unfold processShipment.
    destruct (shipmentAdapter env id) as [s m|m|m] eqn:Hs.
    - apply process_containers_ok; [exact Hu|].
      intros c ty msg Hin Hty. exact (Hc id s m c ty msg (or_introl eq_refl) Hs Hin Hty).
    - split; constructor; [apply buildErrorRecord_ok|constructor| |constructor].
      apply Hid; [left; reflexivity|cbn; tauto].
    - split; constructor; [apply buildErrorRecord_ok|constructor| |constructor].
      apply Hid; [left; reflexivity|cbn; tauto]. }
  destruct (processShipment env id st) as [[rs es] st1]. cbn [fst snd] in H0.
  destruct (IH (fun id' ty msg Hin => Hid id' ty msg (or_intror Hin))
               (fun id' s m c ty msg Hin => Hc id' s m c ty msg (or_intror Hin)) st1) as [Hrs Hes].
  destruct (process_chunk env chunk st1) as [[rs' es'] st2]. cbn [fst snd] in Hrs, Hes |- *.
  destruct H0 as [H0r H0e]. split; apply Forall_app; split; assumption.
Qed.
End AnalyzerInvariants.

Lemma analyzeShipments_records_ok_helper {CS} (env : Env CS) (ids : list string) (st : St CS) :
  Forall record_ok (fst (fst (analyzeShipments env ids st))).
Proof.
  destruct (analyzeShipments_cases env ids st) as [->| ->]; [|constructor].
  apply (process_chunk_ok env (fun _ => True)); intros; exact I.
Qed.

(** Every record analyzeShipments returns has no error text, and has a
    temperature or wind speed only when its weather status is SUCCESS. *)
Theorem analyzeShipments_records_ok {CS} (env : Env CS) (ids : list string) (st : St CS) :
  Forall record_ok (fst (fst (analyzeShipments env ids st))).
Proof. exact (analyzeShipments_records_ok_helper env ids st). Qed.

(** Every error entry analyzeShipments returns has one of the five error
    types. Its key is "unknown" (a rejected container), one of the
    requested shipment IDs, or a container number of a shipment fetched
    for one of them. *)
Theorem analyzeShipments_errors_ok {CS} (env : Env CS) (ids : list string) (st : St CS) :
  Forall (fun e => In (errorType e) errorTypes /\ error_key_ok env ids (error_containerNumber e))
         (snd (fst (analyzeShipments env ids st))).
Proof.
  destruct (analyzeShipments_cases env ids st) as [->| ->]; [|constructor].
  apply process_chunk_ok.
  - intros msg. split; [cbn; tauto|left; reflexivity].
  - intros id ty msg Hin Hty. split; [exact Hty|right; left; exact Hin].
  - intros id s m c ty msg Hin Hs Hc Hty. split; [exact Hty|].
    right; right. exists id, s, m. split; [exact Hin|]. split; [exact Hs|].
    exact (in_map container_containerNumber _ _ Hc).
Qed.

Section CallAccounting.
Context {CS : Type}.
Variable env : Env CS.

Lemma st_grows_refl (st : St CS) w c : st_grows st st w c.
Proof. split; [lia|]. exists []. rewrite app_nil_r. split; [reflexivity|cbn; lia]. Qed.

Lemma st_grows_trans (st1 st2 st3 : St CS) w1 c1 w2 c2 :
  st_grows st1 st2 w1 c1 -> st_grows st2 st3 w2 c2 -> st_grows st1 st3 (w1 + w2) (c1 + c2).
Proof.
  intros [W1 (n1 & E1 & L1)] [W2 (n2 & E2 & L2)]. split; [lia|].
  exists (n1 ++ n2). rewrite E2, E1, app_assoc. split; [reflexivity|].
  rewrite length_app. lia.
Qed.

Lemma st_grows_mono (st st' : St CS) w c w' c' :
  (w <= w')%nat -> (c <= c')%nat -> st_grows st st' w c -> st_grows st st' w' c'.
Proof. intros Hw Hc [W (n & E & L)]. split; [lia|]. exists n. split; [exact E|lia]. Qed.

Lemma callAnalyzer_grows (st : St CS) reason : st_grows st (snd (callAnalyzer env st reason)) 0 1.
Proof.
  unfold callAnalyzer. destruct (delayAnalyzer env (classifier st) reason) as [a c'].
  split; [cbn; lia|]. exists [reason]. split; reflexivity.
Qed.

Lemma analyzeDelay_grows reason cn errors (st : St CS) :
  st_grows st (snd (analyzeDelayWithConfidenceCheck env reason cn errors st)) 0 2.
Proof.
  unfold analyzeDelayWithConfidenceCheck.
  pose proof (callAnalyzer_grows st reason) as G1.
  destruct (callAnalyzer env st reason) as [a1 st1]. cbn [snd] in G1.
  destruct (Qle_bool CONFIDENCE_THRESHOLD (confidence a1)).
  - exact (st_grows_mono _ _ 0 1 0 2 (le_n 0) (le_S _ _ (le_n 1)) G1).
  - pose proof (callAnalyzer_grows st1 reason) as G2.
    destruct (callAnalyzer env st1 reason) as [a2 st2]. cbn [snd] in G2.
    pose proof (st_grows_trans _ _ _ _ _ _ _ G1 G2) as G.
    destruct (Qle_bool CONFIDENCE_THRESHOLD (confidence a2)); exact G.
Qed.

Lemma weather_loop_grows cn reasons : forall errors (st : St CS),
  st_grows st (snd (weather_loop env reasons cn errors st)) 0 (2 * length reasons).
Proof.
  induction reasons as [|reason rest IH]; intros errors st; [apply st_grows_refl|].
  cbn [weather_loop].
  pose proof (analyzeDelay_grows reason cn errors st) as G1.
  destruct (analyzeDelayWithConfidenceCheck env reason cn errors st) as [[[a|] e1] st1];
    cbn [snd] in G1.
  - destruct (isWeatherRelated a).
    + refine (st_grows_mono _ _ _ _ _ _ _ _ G1); cbn [length]; lia.
    + refine (st_grows_mono _ _ _ _ _ _ _ _ (st_grows_trans _ _ _ _ _ _ _ G1 (IH e1 st1)));
        cbn [length]; lia.
  - refine (st_grows_mono _ _ _ _ _ _ _ _ (st_grows_trans _ _ _ _ _ _ _ G1 (IH e1 st1)));
      cbn [length]; lia.
Qed.

Lemma processContainer_grows shipment cn (st : St CS) :
  st_grows st (snd (processContainer env shipment cn st))
    (weather_eligible env cn) (2 * reason_count env cn).
Proof.
  unfold processContainer, weather_eligible, reason_count. cbv zeta.
  destruct (trackingAdapter env cn) as [t m|m|m]; cbv beta iota;
    [|destruct (buildBaseRecord env shipment cn None); apply st_grows_refl
     |destruct (buildBaseRecord env shipment cn None); apply st_grows_refl].
  destruct (buildBaseRecord env shipment cn (Some t)) as [r|e]; [|apply st_grows_refl].
  unfold hasWeatherRelatedDelay.
  pose proof (weather_loop_grows cn (delayReasons t) [] st) as G1.
  destruct (weather_loop env (delayReasons t) cn [] st) as [[[|] e1] st1]; cbn [snd] in G1.
  - assert (G2 : st_grows st1 (snd (fetchWeatherSafely env t cn e1 st1))
                   (match destinationPort t, actualArrival t with
                    | Some _, Some _ => 1 | _, _ => 0 end) 0).
    { unfold fetchWeatherSafely.
      destruct (destinationPort t), (actualArrival t); try apply st_grows_refl.
      destruct (weatherProvider env _ _ _); (split; [cbn; lia|]); exists [];
        rewrite app_nil_r; split; reflexivity. }
    destruct (fetchWeatherSafely env t cn e1 st1) as [[w e2] st2]. cbn [snd] in G2 |- *.
    refine (st_grows_mono _ _ _ _ _ _ _ _ (st_grows_trans _ _ _ _ _ _ _ G1 G2)); lia.
  - refine (st_grows_mono _ _ _ _ _ _ _ _ G1); lia.
Qed.

Lemma process_containers_grows shipment cs : forall (st : St CS),
  st_grows st (snd (process_containers env shipment cs st))
    (list_sum (map (fun c => weather_eligible env (container_containerNumber c)) cs))
    (2 * list_sum (map (fun c => reason_count env (container_containerNumber c)) cs)).
Proof.
  induction cs as [|c cs IH]; intros st; [apply st_grows_refl|].
  cbn [process_containers map list_sum foldr].
  pose proof (processContainer_grows shipment (container_containerNumber c) st) as G1.
  destruct (processContainer env shipment (container_containerNumber c) st) as [o st1].
  cbn [snd] in G1. pose proof (IH st1) as G2.
  destruct (process_containers env shipment cs st1) as [[rs es] st2]. cbn [snd] in G2.
  assert (G : st_grows st st2
            (weather_eligible env (container_containerNumber c) +
             list_sum (map (fun c => weather_eligible env (container_containerNumber c)) cs))
            (2 * reason_count env (container_containerNumber c) +
             2 * list_sum (map (fun c => reason_count env (container_containerNumber c)) cs)))
    by exact (st_grows_trans _ _ _ _ _ _ _ G1 G2).
  destruct o as [[r errs]|e]; cbn [snd];
    (refine (st_grows_mono _ _ _ _ _ _ _ _ G); [unfold list_sum in *; cbn; lia|unfold list_sum in *; cbn; lia]).
Qed.

Lemma process_chunk_grows chunk : forall (st : St CS),
  st_grows st (snd (process_chunk env chunk st))
    (list_sum (map (per_container env (weather_eligible env)) chunk))
    (2 * list_sum (map (per_container env (reason_count env)) chunk)).
Proof.
  induction chunk as [|id chunk IH]; intros st; [apply st_grows_refl|].
  cbn [process_chunk map].
  assert (G1 : st_grows st (snd (processShipment env id st))
                 (per_container env (weather_eligible env) id)
                 (2 * per_container env (reason_count env) id)).
  { unfold processShipment, per_container.
    destruct (shipmentAdapter env id) as [s m|m|m]; [apply process_containers_grows| |];
      apply st_grows_refl. }
  destruct (processShipment env id st) as [[rs es] st1]. cbn [snd] in G1.
  pose proof (IH st1) as G2.
  destruct (process_chunk env chunk st1) as [[rs' es'] st2]. cbn [snd] in G2 |- *.
  refine (st_grows_mono _ _ _ _ _ _ _ _ (st_grows_trans _ _ _ _ _ _ _ G1 G2)); unfold list_sum in *; cbn; lia.
Qed.
End CallAccounting.

(** analyzeShipments makes at most one weather-provider call per
    container whose tracking has a destination port and an actual
    arrival. It calls the delay classifier at most twice per delay reason
    of each tracked container (the initial call and one low-confidence
    retry), and only appends to the log of earlier classifier calls. *)
Theorem analyzeShipments_call_bounds {CS} (env : Env CS) (ids : list string) (st : St CS) :
  let st' := snd (analyzeShipments env ids st) in
  (weatherCalls st' <= weatherCalls st + list_sum (map (per_container env (weather_eligible env)) ids))%nat /\
  exists new, classified st' = classified st ++ new /\
              (length new <= 2 * list_sum (map (per_container env (reason_count env)) ids))%nat.
Proof.
  intros st'. subst st'.
  destruct (analyzeShipments_cases env ids st) as [->| ->].
  - apply process_chunk_grows.
  - apply st_grows_refl.
Qed.

(* ===================================================================== *)
(* enrichRecordsWithErrors: shape                                         *)
(* ===================================================================== *)


(** Enriching twice with the same errors is enriching once with the
    later timestamp: the error field is recomputed from the record's
    shipment and container numbers, never appended to. *)
Theorem enrichRecordsWithErrors_reenrich (records : list ShipmentAnalysisRecord)
    (errors : list ShipmentAnalysisError) (t1 t2 : string) :
  enrichRecordsWithErrors (enrichRecordsWithErrors records errors t1) errors t2 =
  enrichRecordsWithErrors records errors t2.
Proof.
  unfold enrichRecordsWithErrors. rewrite map_map. apply map_ext. intros r. reflexivity.
Qed.

(* ===================================================================== *)
(* KeywordDelayAnalyzerService: proofs                                    *)
(* ===================================================================== *)

Lemma toLowerCase_append (a b : string) : toLowerCase (a +s+ b) = toLowerCase a +s+ toLowerCase b.
Proof.
  induction a as [|c a IH]; [reflexivity|].
  exact (f_equal (String (lower_ascii c)) IH).
Qed.

Lemma prefix_append (n h b : string) : String.prefix n h = true -> String.prefix n (h +s+ b) = true.
Proof.
  revert h. induction n as [|c n IH]; intros h H; [destruct (h +s+ b); reflexivity|].
  destruct h as [|c' h]; [discriminate|].
  change (String c' h +s+ b) with (String c' (h +s+ b)).
  cbn [String.prefix] in H |- *.
  destruct (Ascii.ascii_dec c c'); [apply IH; exact H|discriminate].
Qed.

Lemma includes_append_r (h b n : string) : includes h n = true -> includes (h +s+ b) n = true.
Proof.
  induction h as [|c h IH]; intros H.
  - cbn [includes] in H. rewrite orb_false_r in H.
    destruct n; [destruct b; reflexivity|discriminate].
  - change (String c h +s+ b) with (String c (h +s+ b)).
    cbn [includes] in H |- *. apply orb_true_iff in H. apply orb_true_iff.
    destruct H as [H|H]; [left; apply prefix_append with (b := b) in H; exact H|right; apply IH; exact H].
Qed.

Lemma includes_append_l (a h n : string) : includes h n = true -> includes (a +s+ h) n = true.
Proof.
  induction a as [|c a IH]; intros H; [exact H|].
  change (String c a +s+ h) with (String c (a +s+ h)).
  cbn [includes]. apply orb_true_iff. right. apply IH. exact H.
Qed.

(** The keyword classifier is monotone under added context: if a delay
    reason is classified weather-related, any text containing it
    (a + reason + b) is weather-related too, with confidence 0.7. *)
Theorem keyword_analyzeDelay_context (a reason b : string)
    (H : isWeatherRelated (keyword_analyzeDelay reason) = true) :
  isWeatherRelated (keyword_analyzeDelay (a +s+ reason +s+ b)) = true /\
  confidence (keyword_analyzeDelay (a +s+ reason +s+ b)) = (7 # 10)%Q.
Proof.
  assert (W : existsb (fun keyword => includes (toLowerCase (a +s+ reason +s+ b)) keyword)
                weatherKeywords = true).
  { cbn [keyword_analyzeDelay isWeatherRelated] in H.
    apply existsb_exists in H. destruct H as (k & Hk & Hinc).
    apply existsb_exists. exists k. split; [exact Hk|].
    rewrite !toLowerCase_append. apply includes_append_l, includes_append_r. exact Hinc. }
  unfold keyword_analyzeDelay. cbv zeta. rewrite W. split; reflexivity.
Qed.

Lemma keyword_analyzeDelay_context_witness :
  isWeatherRelated (keyword_analyzeDelay "Heavy fog") = true /\
  isWeatherRelated (keyword_analyzeDelay ("Port closed: " +s+ "Heavy fog" +s+ " at berth")) = true /\
  confidence (keyword_analyzeDelay ("Port closed: " +s+ "Heavy fog" +s+ " at berth")) = (7 # 10)%Q.
Proof.
  assert (H : isWeatherRelated (keyword_analyzeDelay "Heavy fog") = true) by (vm_compute; reflexivity).
  split; [exact H|].
  exact (keyword_analyzeDelay_context "Port closed: " "Heavy fog" " at berth" H).
Defined.

(* ===================================================================== *)
(* Retry predicates: the provider's check against the shared helpers     *)
(* ===================================================================== *)

(** The Open-Meteo provider's isRetryableError is the shared
    isNetworkError || isHttpRetryable(statusCode), except that status
    codes of 600 and above are retryable for isHttpRetryable but not for
    the provider. *)
Theorem isRetryableError_vs_isHttpRetryable (e : Error) :
  isRetryableError e =
  isNetworkError e ||
  (isHttpRetryable (statusCode e) &&
   match statusCode e with Some sc => (sc <? 600)%Z | None => true end).
Proof.
  unfold isRetryableError, isHttpRetryable.
  destruct (isNetworkError e); [reflexivity|]. cbn [orb].
  destruct (statusCode e) as [sc|]; [|reflexivity].
  destruct (Z.eqb_spec sc 0) as [->|H0]; [reflexivity|].
  destruct (Z.eqb_spec sc 429) as [->|H4]; [reflexivity|].
  destruct (Z.leb_spec 500 sc); destruct (Z.ltb_spec sc 600); cbn; reflexivity || lia.
Qed.

(* ===================================================================== *)
(* index.ts main: analysis followed by enrichment                         *)
(* ===================================================================== *)

(** In main, enrichRecordsWithErrors over the result of
    analyzeShipments keeps one record per analyzed record. Each record
    gets main's timestamp, and the enriched records still carry a
    temperature or wind speed only when their weather status is
    SUCCESS. *)
Theorem main_enriched_records {CS} (env : Env CS) (ids : list string) (st : St CS)
    (timestamp : string) :
  let '(records, errors, _) := analyzeShipments env ids st in
  let enriched := enrichRecordsWithErrors records errors timestamp in
  length enriched = length records /\
  Forall (fun r => lastUpdated r = timestamp /\
                   ((record_temperature r <> None \/ record_windSpeed r <> None) ->
                    weatherFetchStatus r = Some SUCCESS)) enriched.
Proof.
  pose proof (analyzeShipments_records_ok_helper env ids st) as Hok.
  destruct (analyzeShipments env ids st) as [[records errors] st'].
  cbn [fst] in Hok. unfold enrichRecordsWithErrors.
  split; [apply length_map|].
  apply Forall_map. eapply Forall_impl; [exact Hok|].
  intros r (_ & Hw). split; [reflexivity|exact Hw].
Qed.
